(** * DevWatch: the event loop of watchEvents.go

    A shallow embedding of [watchEvents], [handleDirectoryEvent],
    [handleFileEvent], [scheduleReload], [stopReload] and
    [calculateFileHash].  The loop is sequential code over a mutable
    receiver and an outside world (file system, clock, handlers), so it is
    written in a small state monad; every call that leaves the package is
    recorded in a log, which is what the ordering properties are stated on. *)

From Stdlib Require Import ZArith Lia String Ascii List Bool Sorted.
From Stdlib.Strings Require Import Byte.
From stdpp Require Import base option gmap strings list.
Import ListNotations.
Local Open Scope Z_scope.

(** ** The parts of the Go library the code relies on *)

Module Go.

(** [error]: [None] is [nil]. *)
Definition error := option string.

(** [time.Duration]: an int64 count of nanoseconds. *)
Definition Duration := Z.
Definition minDuration : Duration := - 2 ^ 63.
Definition maxDuration : Duration := 2 ^ 63 - 1.
Definition Millisecond : Duration := 1000000.

(** [time.Time] as the reading of the monotonic clock, in nanoseconds. *)
Definition Time := Z.

(** [t.Sub(u)]: the difference, saturated to the range of [Duration]. *)
Definition Sub (t u : Time) : Duration :=
  let d := t - u in
  if d <? minDuration then minDuration
  else if maxDuration <? d then maxDuration
  else d.

(** [strings.ToLower] on ASCII text (the names of the fsnotify operations
    are ASCII). *)
Definition lower (c : ascii) : ascii :=
  let n := N_of_ascii c in
  if ((65 <=? n) && (n <=? 90))%N then ascii_of_N (n + 32) else c.

Fixpoint ToLower (s : string) : string :=
  match s with
  | EmptyString => EmptyString
  | String c s' => String (lower c) (ToLower s')
  end.

(** [os.IsPathSeparator]: ['/'] everywhere, and the platform separator. *)
Definition IsPathSeparator (sep c : ascii) : bool :=
  Ascii.eqb c "/" || Ascii.eqb c sep.

(** [filepath.Ext]: scan from the last byte towards the first, stop at a
    separator (no extension), return the suffix from the first dot met. *)
Fixpoint ext_scan (sep : ascii) (rpath acc : list ascii) : list ascii :=
  match rpath with
  | [] => []
  | c :: r =>
      if IsPathSeparator sep c then []
      else if Ascii.eqb c "." then c :: acc
      else ext_scan sep r (c :: acc)
  end.

Definition Ext (sep : ascii) (path : string) : string :=
  string_of_list_ascii (ext_scan sep (rev (list_ascii_of_string path)) []).

(** [slices.Contains] on strings. *)
Definition Contains (s : list string) (v : string) : bool :=
  existsb (String.eqb v) s.

(** [copy(hash[:], sum)] into a zeroed [[32]byte]. *)
Definition copy32 (sum : list byte) : list byte :=
  firstn 32 (sum ++ repeat x00 32).

(** [time.Timer], with its channel of capacity one.  [when] is the
    deadline while the timer is active, [C] the tick waiting in the
    channel.  This is the timer the stop-and-drain idiom of
    [scheduleReload] and [stopReload] is written for. *)
Record Timer := { when : option Time; C : option Time }.

(** [time.NewTimer(d)] at clock reading [now]. *)
Definition NewTimer (now : Time) (d : Duration) : Timer :=
  {| when := Some (now + d); C := None |}.

(** [t.Stop()]: reports whether the call stopped an active timer. *)
Definition Stop (t : Timer) : bool * Timer :=
  (bool_decide (is_Some (when t)), {| when := None; C := C t |}).

(** [t.Reset(d)] at clock reading [now]. *)
Definition Reset (now : Time) (d : Duration) (t : Timer) : Timer :=
  {| when := Some (now + d); C := C t |}.

(** [select { case <-t.C: ... default: ... }]: a receive that does not
    block. *)
Definition tryRecv (t : Timer) : option Time * Timer :=
  (C t, {| when := when t; C := None |}).

(** The runtime firing a timer that is due: the timer becomes inactive
    and the tick is sent without blocking (dropped if the channel is
    full). *)
Definition fire (now : Time) (t : Timer) : Timer :=
  {| when := None; C := match C t with Some v => Some v | None => Some now end |}.

End Go.
Import Go.

(** [[32]byte] *)
Definition Hash := list byte.
Definition zeroHash : Hash := repeat x00 32.

#[global] Instance byte_eq_decision : EqDecision byte := byte_eq_dec.

(** [fileEventKey] stores both time and content hash. *)
Record fileEventKey := { lastTime : Time; lastHash : Hash }.

(** [fsnotify.Event]: [Op] is what [event.Op.String()] returns. *)
Record Event := { Name : string; Op : string }.

(** What [os.Open] followed by [io.Copy] can come to. *)
Inductive ReadResult :=
| OpenError
| CopyError
| Content (bytes : list byte).

(** The tree [filepath.Walk] finds under a path. *)
#[warnings="-register-all"]
Inductive FsNode :=
| LstatError
| RegularFile
| Directory (entries : option (list (string * FsNode))).

(** Every call that leaves the package, with what it returned. *)
Inductive Call :=
| CStat (name : string) (ok : bool)
| CContain (path : string) (excluded : bool)
| CHash (path : string) (h : Hash)
| CThisFileIsMine (i : nat) (isMine : bool) (herr : error)
| CNewFileEvent (i : nat) (err : error)
| CNewFolderEvent (fileName path eventType : string)
| CWatcherAdd (path : string) (err : error)
| CWatcherClose
| CTimerArm (deadline : Time)
| CBrowserReload (at_ : Time)
| CLogger (msg : string).

#[global] Instance Call_eq_decision : EqDecision Call.
Proof. solve_decision. Defined.

(** The outside world of a [DevWatch]: operating system, clock, SHA-256,
    the dependency finder, the notification source, and the two helpers
    of the package that [watchEvents] calls. *)
Class Runtime := {
  World : Type;
  Separator : ascii;
  time_Now : World -> Time;
  os_Stat : string -> World -> option bool * World;
  os_Read : string -> World -> ReadResult * World;
  os_Tree : string -> World -> FsNode;
  sha256_Sum : list byte -> list byte;
  watcher_Add : string -> World -> error * World;
  watcher_Close : World -> World;
  ThisFileIsMine : string -> string -> string -> World -> (bool * error) * World;
  GetFileName : string -> option string;
  Contain : string -> bool;
}.

(** [FilesEventHandlers], the interface of a registered handler. *)
Record FilesEventHandlers `{Runtime} := {
  MainInputFileRelativePath : string;
  NewFileEvent : string -> string -> string -> string -> World -> error * World;
  SupportedExtensions : list string;
}.

(** [WatchConfig], fixed at construction. *)
Record WatchConfig `{Runtime} := {
  Handlers : list FilesEventHandlers;
  FolderEvents : option (string -> string -> string -> World -> error * World);
  BrowserReload : option (World -> error * World);
}.

(** [DevWatch] while [watchEvents] runs: the world, the reload timer and
    whether the goroutine that waits on it exists, the local map
    [lastEventInfo], and the log of calls. *)
Record DevWatch `{Runtime} := {
  world : World;
  reloadTimer : option Timer;
  consumer : bool;
  lastEventInfo : gmap string fileEventKey;
  calls : list Call;
}.

(** ** A small state monad *)

Definition State (S A : Type) : Type := S -> A * S.

Definition ret {S A} (a : A) : State S A := fun s => (a, s).

Definition bind {S A B} (m : State S A) (k : A -> State S B) : State S B :=
  fun s => let (a, s') := m s in k a s'.

Notation "x <- m ;; k" := (bind m (fun x => k))
  (at level 100, m at next level, right associativity).
Notation "m ;; k" := (bind m (fun _ => k))
  (at level 100, right associativity).

(** A computation on the receiver run inside a computation that also
    carries a local variable of type [L]. *)
Definition lift {L S A} (m : State S A) : State (L * S) A :=
  fun '(l, s) => let (a, s') := m s in (a, (l, s')).

(** ** The code of watchEvents.go *)

Section Code.
Context `{Runtime}.
Variable cfg : WatchConfig.

Definition debounceWindow : Duration := 50 * Millisecond.
Definition wait : Duration := 50 * Millisecond.

(** A call into the world, logged with its result. *)
Definition call {A} (f : World -> A * World) (log : A -> Call) : State DevWatch A :=
  fun h =>
    let (a, w) := f (world h) in
    (a, {| world := w; reloadTimer := reloadTimer h; consumer := consumer h;
           lastEventInfo := lastEventInfo h; calls := calls h ++ [log a] |}).

(** A call of a function of the package that is pure, logged. *)
Definition note (c : Call) : State DevWatch unit :=
  fun h =>
    (tt, {| world := world h; reloadTimer := reloadTimer h; consumer := consumer h;
            lastEventInfo := lastEventInfo h; calls := calls h ++ [c] |}).

Definition now : State DevWatch Time := fun h => (time_Now (world h), h).

Definition getTimer : State DevWatch (option Timer) := fun h => (reloadTimer h, h).

Definition setTimer (t : Timer) : State DevWatch unit :=
  fun h =>
    (tt, {| world := world h; reloadTimer := Some t; consumer := consumer h;
            lastEventInfo := lastEventInfo h; calls := calls h |}).

Definition startConsumer : State DevWatch unit :=
  fun h =>
    (tt, {| world := world h; reloadTimer := reloadTimer h; consumer := true;
            lastEventInfo := lastEventInfo h; calls := calls h |}).

Definition getRecord (name : string) : State DevWatch (option fileEventKey) :=
  fun h => (lastEventInfo h !! name, h).

Definition setRecord (name : string) (k : fileEventKey) : State DevWatch unit :=
  fun h =>
    (tt, {| world := world h; reloadTimer := reloadTimer h; consumer := consumer h;
            lastEventInfo := <[name := k]> (lastEventInfo h); calls := calls h |}).

Definition Logger (msg : string) : State DevWatch unit := note (CLogger msg).

(** [h.Contain(path)] *)
Definition contain (path : string) : State DevWatch bool :=
  note (CContain path (Contain path)) ;; ret (Contain path).

(** [calculateFileHash]: the zero hash if the file cannot be opened or
    read, its SHA-256 otherwise. *)
Definition hashOf (r : ReadResult) : Hash :=
  match r with
  | OpenError => zeroHash
  | CopyError => zeroHash
  | Content bytes => copy32 (sha256_Sum bytes)
  end.

Definition calculateFileHash (filePath : string) : State DevWatch Hash :=
  r <- call (os_Read filePath) (fun r => CHash filePath (hashOf r)) ;;
  ret (hashOf r).

(** [triggerBrowserReload] *)
Definition triggerBrowserReload : State DevWatch unit :=
  match BrowserReload cfg with
  | Some reload =>
      t <- now ;;
      call reload (fun _ => CBrowserReload t) ;; ret tt
  | None => ret tt
  end.

(** [scheduleReload] *)
Definition scheduleReload : State DevWatch unit :=
  t <- now ;;
  timer <- getTimer ;;
  match timer with
  | None => setTimer (NewTimer t wait) ;; note (CTimerArm (t + wait))
  | Some timer =>
      let (stopped, timer) := Stop timer in
      let timer := if negb stopped then snd (tryRecv timer) else timer in
      setTimer (Reset t wait timer) ;; note (CTimerArm (t + wait))
  end.

(** [stopReload] *)
Definition stopReload : State DevWatch unit :=
  timer <- getTimer ;;
  match timer with
  | Some timer =>
      let (stopped, timer) := Stop timer in
      if negb stopped then
        match tryRecv timer with
        | (Some _, timer) => setTimer timer ;; triggerBrowserReload
        | (None, timer) => setTimer timer
        end
      else setTimer timer
  | None => ret tt
  end.

(** The goroutine started by [watchEvents]: [for { <-t.C; h.triggerBrowserReload() }].
    One turn of it, possible when a tick waits in the channel. *)
Definition consume : State DevWatch bool :=
  fun h =>
    match consumer h, reloadTimer h with
    | true, Some timer =>
        match tryRecv timer with
        | (Some _, timer) => (setTimer timer ;; triggerBrowserReload ;; ret true) h
        | (None, _) => (false, h)
        end
    | _, _ => (false, h)
    end.

(** The runtime firing the reload timer once its deadline is reached. *)
Definition expire : State DevWatch bool :=
  fun h =>
    match reloadTimer h with
    | Some timer =>
        match when timer with
        | Some deadline =>
            if deadline <=? time_Now (world h)
            then (setTimer (fire (time_Now (world h)) timer) ;; ret true) h
            else (false, h)
        | None => (false, h)
        end
    | None => (false, h)
    end.

(** The head of [watchEvents]: a stopped timer and the goroutine on it,
    unless a timer exists already.  [Stop] follows [NewTimer(0)] at once:
    the new timer does not fire in between. *)
Definition startReloadTimer : State DevWatch unit :=
  timer <- getTimer ;;
  match timer with
  | None =>
      t <- now ;;
      setTimer (snd (Stop (NewTimer t 0))) ;;
      startConsumer
  | Some _ => ret tt
  end.

(** [handleFileEvent]: the body of [for _, handler := range h.FilesEventHandlers],
    with the two flags it updates; [i] is the index of [handler]. *)
Section Dispatch.
Variables (fileName eventName eventType : string) (isDeleteEvent : bool).

Definition extension : string := Ext Separator eventName.
Definition isGoFileEvent : bool := String.eqb extension ".go".

Definition oneHandler (i : nat) (handler : FilesEventHandlers)
    (flags : bool * bool) : State DevWatch (bool * bool) :=
  if negb (Contains (SupportedExtensions handler) extension) then ret flags
  else
    mine <- (if negb isDeleteEvent && String.eqb extension ".go"
             then call (ThisFileIsMine (MainInputFileRelativePath handler) eventName eventType)
                       (fun r => CThisFileIsMine i (fst r) (snd r))
             else ret (true, None)) ;;
    match mine with
    | (_, Some _) => ret flags
    | (isMine, None) =>
        if isMine then
          err <- call (NewFileEvent handler fileName extension eventName eventType)
                      (CNewFileEvent i) ;;
          match err with
          | Some _ => ret flags
          | None => ret (true, if isGoFileEvent then true else snd flags)
          end
        else ret flags
    end.

Fixpoint rangeHandlers (i : nat) (handlers : list FilesEventHandlers)
    (flags : bool * bool) : State DevWatch (bool * bool) :=
  match handlers with
  | [] => ret flags
  | handler :: rest =>
      flags' <- oneHandler i handler flags ;;
      rangeHandlers (S i) rest flags'
  end.

Definition handleFileEvent : State DevWatch unit :=
  flags <- rangeHandlers 0 (Handlers cfg) (false, false) ;;
  let (processedSuccessfully, atLeastOneGoHandlerSucceeded) := flags in
  if (isGoFileEvent && atLeastOneGoHandlerSucceeded)
     || (negb isGoFileEvent && processedSuccessfully)
  then scheduleReload
  else ret tt.
End Dispatch.

(** Modelled from the spec: [addDirectoryToWatcher], which the source
    calls and does not contain.  It registers [path] with the
    notification source unless the registration set [reg] of the current
    walk holds it already, and enters it in [reg] once registered.  [reg]
    is the Go map the caller shares with it, here the local component of
    the state. *)
Definition addDirectoryToWatcher (path : string) : State (gset string * DevWatch) error :=
  fun '(reg, h) =>
    if bool_decide (path ∈ reg) then (None, (reg, h))
    else
      let (err, h') := call (watcher_Add path) (CWatcherAdd path) h in
      match err with
      | Some e => (Some e, (reg, h'))
      | None => (None, ({[path]} ∪ reg, h'))
      end.

(** [filepath.Join(path, name)] on a clean [path]. *)
Definition Join (path name : string) : string :=
  path +:+ String Separator name.

(** [info.IsDir()]; [info] is [nil] for a delete event, where it is not
    consulted. *)
Definition IsDir (info : option bool) : bool :=
  match info with Some d => d | None => false end.

(** [filepath.Walk] for a function that never returns an error, so that
    the walk is never cut short: the function is called on the root and
    on every entry below a directory that could be listed, in order;
    an entry whose lstat failed and a directory that could not be listed
    are reported to it with the error. *)
Section Walk.
Context {L : Type}.
Variable walkFn : string -> option bool -> error -> State (L * DevWatch) unit.

Fixpoint walk (path : string) (node : FsNode) : State (L * DevWatch) unit :=
  match node with
  | LstatError => walkFn path None (Some "lstat"%string)
  | RegularFile => walkFn path (Some false) None
  | Directory None => walkFn path (Some true) (Some "readdir"%string)
  | Directory (Some entries) =>
      walkFn path (Some true) None ;;
      (fix range (names : list (string * FsNode)) : State (L * DevWatch) unit :=
         match names with
         | [] => ret tt
         | (name, child) :: rest => walk (Join path name) child ;; range rest
         end) entries
  end.

Definition Walk (root : string) : State (L * DevWatch) unit :=
  fun '(l, h) => walk root (os_Tree root (world h)) (l, h).
End Walk.

(** [handleDirectoryEvent]: the function it walks the new directory with,
    the notification of the folder observer, the registration of the new
    directory and of what is below it. *)
Definition newDirectoryWalkFn (eventName path : string) (info : option bool)
    (err : error) : State (gset string * DevWatch) unit :=
  match err with
  | Some _ => ret tt
  | None =>
      if IsDir info && negb (String.eqb path eventName) then
        excluded <- lift (contain path) ;;
        if negb excluded then addDirectoryToWatcher path ;; ret tt else ret tt
      else ret tt
  end.

Definition notifyFolderEvents (fileName eventName eventType : string)
    : State DevWatch unit :=
  match FolderEvents cfg with
  | Some NewFolderEvent =>
      err <- call (NewFolderEvent fileName eventName eventType)
                  (fun _ => CNewFolderEvent fileName eventName eventType) ;;
      match err with
      | Some _ => Logger "Watch folder event error:"
      | None => ret tt
      end
  | None => ret tt
  end.

Definition addNewDirectory (eventName : string) : State DevWatch unit :=
  fun h =>
    let '(err, (reg, h1)) := addDirectoryToWatcher eventName (∅, h) in
    match err with
    | None =>
        let '(_, (_, h2)) := Walk (newDirectoryWalkFn eventName) eventName (reg, h1) in
        (tt, h2)
    | Some _ => (tt, h1)
    end.

Definition handleDirectoryEvent (fileName eventName eventType : string)
    : State DevWatch unit :=
  notifyFolderEvents fileName eventName eventType ;;
  if String.eqb eventType "create" then addNewDirectory eventName else ret tt.

(** The debounce test of [watchEvents]. *)
Definition shouldProcess (name : string) (t : Time) : State DevWatch bool :=
  last <- getRecord name ;;
  match last with
  | Some lastInfo =>
      let timeSinceLastEvent := Sub t (lastTime lastInfo) in
      if timeSinceLastEvent <=? debounceWindow then
        currentHash <- calculateFileHash name ;;
        if bool_decide (currentHash = lastHash lastInfo) then ret false else ret true
      else ret true
  | None => ret true
  end.

(** [os.Stat] and the exclusion test of a non-delete event; [None] is
    the [continue] of the loop. *)
Definition statNotContained (name : string) : State DevWatch (option (option bool)) :=
  info <- call (os_Stat name) (fun r => CStat name (bool_decide (is_Some r))) ;;
  match info with
  | None => ret None
  | Some isDir =>
      excluded <- contain name ;;
      if excluded then ret None else ret (Some (Some isDir))
  end.

(** The file part of the loop body: debounce, dispatch, record. *)
Definition fileEvent (fileName : string) (event : Event) (eventType : string)
    (isDeleteEvent : bool) : State DevWatch unit :=
  t <- now ;;
  process <- shouldProcess (Name event) t ;;
  if negb process then ret tt
  else
    handleFileEvent fileName (Name event) eventType isDeleteEvent ;;
    hash <- calculateFileHash (Name event) ;;
    setRecord (Name event) {| lastTime := t; lastHash := hash |}.

(** The body of [case event, ok := <-h.watcher.Events] for [ok]. *)
Definition onEvent (event : Event) : State DevWatch unit :=
  let eventType := ToLower (Op event) in
  let isDeleteEvent := String.eqb eventType "remove" || String.eqb eventType "delete" in
  checked <- (if negb isDeleteEvent then statNotContained (Name event)
              else ret (Some None)) ;;
  match checked with
  | None => ret tt
  | Some info =>
      match GetFileName (Name event) with
      | None => ret tt
      | Some fileName =>
          if negb isDeleteEvent && IsDir info
          then handleDirectoryEvent fileName (Name event) eventType
          else fileEvent fileName event eventType isDeleteEvent
      end
  end.

(** What one turn of the [select] receives. *)
Inductive Received :=
| FromEvents (event : option Event)
| FromErrors (ok : bool)
| FromExitChan.

(** One turn of the loop; [false] is [return]. *)
Definition onReceive (r : Received) : State DevWatch bool :=
  match r with
  | FromEvents None => Logger "Error h.watcher.Events" ;; ret false
  | FromEvents (Some event) => onEvent event ;; ret true
  | FromErrors false => Logger "h.watcher.Errors:" ;; ret false
  | FromErrors true => ret true
  | FromExitChan =>
      call (fun w => (tt, watcher_Close w)) (fun _ => CWatcherClose) ;;
      stopReload ;;
      ret false
  end.

Fixpoint loop (rs : list Received) : State DevWatch unit :=
  match rs with
  | [] => ret tt
  | r :: rest =>
      again <- onReceive r ;;
      if again then loop rest else ret tt
  end.

Definition watchEvents (rs : list Received) : State DevWatch unit :=
  startReloadTimer ;; loop rs.
End Code.

(** ** The exclusion predicate *)

Module Exclusion.

(** The path cut at every separator (['/'] and the platform's), empty
    pieces included. *)
Fixpoint split_path (sep : ascii) (path : string) : list string :=
  match path with
  | EmptyString => [EmptyString]
  | String c rest =>
      if IsPathSeparator sep c then EmptyString :: split_path sep rest
      else match split_path sep rest with
           | seg :: segs => String c seg :: segs
           | [] => [String c EmptyString]
           end
  end.

(** A segment that starts with ['.']. *)
Definition hidden (seg : string) : bool :=
  match seg with
  | String c _ => Ascii.eqb c "."
  | EmptyString => false
  end.

(** Modelled from the spec: [Contain], of which the source has only the
    test table.  A path is excluded if any path segment either starts
    with ['.'] or exactly matches one of the caller-supplied names
    ([UnobservedFiles]); the match is segment-wise, on both ['/'] and the
    platform separator. *)
Definition Contain (sep : ascii) (unobserved : list string) (path : string) : bool :=
  existsb (fun seg => hidden seg || Contains unobserved seg) (split_path sep path).




End Exclusion.

(** ** The reload timer next to the loop *)

Section Scheduler.
Context `{Runtime}.
Variable cfg : WatchConfig.

(** The times at which the reload action was called. *)
Fixpoint reloads (log : list Call) : list Time :=
  match log with
  | [] => []
  | CBrowserReload t :: rest => t :: reloads rest
  | _ :: rest => reloads rest
  end.

(** The timer is neither active nor holding a tick. *)
Definition idle (h : DevWatch) : Prop :=
  exists timer, reloadTimer h = Some timer /\ when timer = None /\ C timer = None.

(** What happens around the calls of [scheduleReload]: the loop and the
    handlers run, records are written and time passes (the clock never
    goes back, no reload is called from there); the runtime fires the
    timer once it is due; the goroutine takes the tick and calls the
    reload action. *)
Inductive Step : DevWatch -> DevWatch -> Prop :=
| step_world h w records log :
    time_Now (world h) <= time_Now w -> reloads log = [] ->
    Step h {| world := w; reloadTimer := reloadTimer h; consumer := consumer h;
              lastEventInfo := records; calls := calls h ++ log |}
| step_expire h h' :
    expire h = (true, h') -> Step h h'
| step_consume h h' :
    consume cfg h = (true, h') -> Step h h'.

End Scheduler.

(** ** A concrete world, to run the code on *)

Module Example.

Record Sys := {
  clock : Time;
  files : list (string * list byte);
  locked : list string;
  dirs : list string;
  watched : list string;
}.

Fixpoint lookup_file (name : string) (fs : list (string * list byte)) : option (list byte) :=
  match fs with
  | [] => None
  | (n, bytes) :: rest => if String.eqb n name then Some bytes else lookup_file name rest
  end.

Definition stat (name : string) (w : Sys) : option bool * Sys :=
  (if Contains (dirs w) name then Some true
   else if Contains (locked w) name then Some false
   else match lookup_file name (files w) with Some _ => Some false | None => None end,
   w).

Definition read (name : string) (w : Sys) : ReadResult * Sys :=
  (if Contains (locked w) name then OpenError
   else match lookup_file name (files w) with Some bytes => Content bytes | None => OpenError end,
   w).

Definition tree (root : string) (w : Sys) : FsNode :=
  if String.eqb root "pkg" then
    Directory (Some [("a"%string, Directory (Some [("b"%string, Directory (Some []))]));
                     ("main.go"%string, RegularFile);
                     (".git"%string, Directory (Some [("objects"%string, Directory (Some []))]));
                     ("sealed"%string, Directory None);
                     ("gone"%string, LstatError);
                     ("c"%string, Directory (Some []))])
  else LstatError.

Definition add (path : string) (w : Sys) : error * Sys :=
  (None, {| clock := clock w; files := files w; locked := locked w; dirs := dirs w;
            watched := watched w ++ [path] |}).

Definition mine (main file eventType : string) (w : Sys) : (bool * error) * Sys :=
  (if String.eqb main "broken/main.go" then (false, Some "no go.mod"%string)
   else (String.eqb main "web/main.go", None),
   w).

Definition baseName (path : string) : option string :=
  match path with
  | EmptyString => None
  | _ => Some (List.last (Exclusion.split_path "/" path) EmptyString)
  end.

#[global] Instance runtime : Runtime := {|
  World := Sys;
  Separator := "/"%char;
  time_Now := clock;
  os_Stat := stat;
  os_Read := read;
  os_Tree := tree;
  sha256_Sum := fun bytes => bytes;
  watcher_Add := add;
  watcher_Close := fun w => w;
  ThisFileIsMine := mine;
  GetFileName := baseName;
  Contain := Exclusion.Contain "/" [".git"%string];
|}.

(** A handler that compiles: it rewrites the file it is told about and
    takes two seconds. *)
Fixpoint rewrite (name : string) (fs : list (string * list byte)) : list (string * list byte) :=
  match fs with
  | [] => []
  | (n, bytes) :: rest =>
      if String.eqb n name then (n, bytes ++ [x01]) :: rest else (n, bytes) :: rewrite name rest
  end.

Definition compile (fileName extension filePath event : string) (w : Sys) : error * Sys :=
  (None, {| clock := clock w + 2000 * Millisecond; files := rewrite filePath (files w);
            locked := locked w; dirs := dirs w; watched := watched w |}).

Definition wasm : FilesEventHandlers :=
  {| MainInputFileRelativePath := "web/main.go";
     NewFileEvent := compile;
     SupportedExtensions := [".go"%string] |}.

Definition broken : FilesEventHandlers :=
  {| MainInputFileRelativePath := "broken/main.go";
     NewFileEvent := fun _ _ _ _ w => (None, w);
     SupportedExtensions := [".go"%string] |}.

Definition failing : FilesEventHandlers :=
  {| MainInputFileRelativePath := "srv/main.go";
     NewFileEvent := fun _ _ _ _ w => (Some "build failed"%string, w);
     SupportedExtensions := [".css"%string; ".go"%string] |}.

Definition assets : FilesEventHandlers :=
  {| MainInputFileRelativePath := "web/public/main.js";
     NewFileEvent := fun _ _ _ _ w => (None, w);
     SupportedExtensions := [".css"%string; ".js"%string] |}.

Definition config : WatchConfig :=
  {| Handlers := [failing; broken; wasm; assets];
     FolderEvents := None;
     BrowserReload := Some (fun w => (None, w)) |}.

Definition disk : Sys :=
  {| clock := 1000 * Millisecond;
     files := [("web/main.go"%string, [x61]); ("web/style.css"%string, [x62])];
     locked := ["web/secret.go"%string];
     dirs := ["pkg"%string];
     watched := [] |}.

Definition later (d : Duration) (w : Sys) : Sys :=
  {| clock := clock w + d; files := files w; locked := locked w; dirs := dirs w;
     watched := watched w |}.

(** The receiver as [New] returns it. *)
Definition fresh : DevWatch :=
  {| world := disk; reloadTimer := None; consumer := false;
     lastEventInfo := ∅; calls := [] |}.

(** The receiver once [watchEvents] has entered its loop. *)
Definition started : DevWatch := snd (startReloadTimer fresh).


(** Time passing, with nothing logged. *)
Definition tick (d : Duration) (h : DevWatch) : DevWatch :=
  {| world := later d (world h); reloadTimer := reloadTimer h; consumer := consumer h;
     lastEventInfo := lastEventInfo h; calls := calls h ++ [] |}.

(** Five qualifying results ten milliseconds apart, then fifty
    milliseconds of silence, the timer firing and the goroutine taking the
    tick. *)
Definition again (h : DevWatch) : DevWatch := snd (scheduleReload (tick (10 * Millisecond) h)).



(** A file that is deleted, and the notification of it, twice. *)
Definition removed : Event := {| Name := "web/old.css"; Op := "REMOVE" |}.

(** A delete below a hidden directory. *)
Definition removedInGit : Event := {| Name := ".git/index.css"; Op := "REMOVE" |}.

(** A source file saved. *)
Definition saved : Event := {| Name := "web/main.go"; Op := "WRITE" |}.

(** A style sheet saved. *)
Definition styled : Event := {| Name := "web/style.css"; Op := "WRITE" |}.

(** A directory tree created at once. *)
Definition created : Event := {| Name := "pkg"; Op := "CREATE" |}.


(** The calls a turn of the loop adds to the log. *)
Definition turn (event : Event) (h : DevWatch) : list Call :=
  skipn (length (calls h)) (calls (snd (onEvent config event h))).


(** A file of a kind no handler declares. *)
Definition noted : Event := {| Name := "notes.txt"; Op := "WRITE" |}.

(** A configuration whose handlers do not own [web/main.go]. *)
Definition backends : WatchConfig :=
  {| Handlers := [failing; broken];
     FolderEvents := None;
     BrowserReload := Some (fun w => (None, w)) |}.

(** The receiver after the first turn on the style sheet. *)
Definition styledOnce : DevWatch :=
  snd (fileEvent config "style.css" styled "write" false started).
End Example.

(** ** Vocabulary of the properties *)

(** [h'] is [h] after calls that were logged as [log] and that left the
    timer, the goroutine and the debounce records alone. *)
Definition extends `{Runtime} (h h' : DevWatch) (log : list Call) : Prop :=
  calls h' = calls h ++ log /\
  reloadTimer h' = reloadTimer h /\
  consumer h' = consumer h /\
  lastEventInfo h' = lastEventInfo h.

(** The handler a logged call went to. *)
Definition handlerIndex (c : Call) : option nat :=
  match c with
  | CThisFileIsMine i _ _ => Some i
  | CNewFileEvent i _ => Some i
  | _ => None
  end.

(** Membership in a log that is given by its entries. *)
Ltac in_log :=
  repeat match goal with
  | H : _ ∈ [] |- _ => apply elem_of_nil in H; destruct H
  | H : _ ∈ _ :: _ |- _ => apply elem_of_cons in H; destruct H as [H|H]
  | H : _ ∈ _ ++ _ |- _ => apply elem_of_app in H; destruct H as [H|H]
  | H : _ \/ _ |- _ => destruct H as [H|H]
  | H : _ /\ _ |- _ => destruct H as [? H]
  | H : exists _, _ |- _ => destruct H as [? H]
  end.

Ltac log_has :=
  solve [ repeat first [ apply list_elem_of_here | apply list_elem_of_further ] ].

(** The test [watchEvents] makes on the kind of an event. *)
Definition isDelete (event : Event) : bool :=
  String.eqb (ToLower (Op event)) "remove" || String.eqb (ToLower (Op event)) "delete".

(** The calls by which the loop looks at the path of an event before
    anything else: [os.Stat] and [Contain]. *)
Definition isPathCheck (c : Call) : bool :=
  match c with
  | CStat _ _ => true
  | CContain _ _ => true
  | _ => false
  end.


(** The directories [filepath.Walk] comes to under [path] and can list,
    in the order of the walk, [path] first. *)
Fixpoint found `{Runtime} (path : string) (node : FsNode) : list string :=
  match node with
  | Directory (Some entries) =>
      path ::
      (fix below (names : list (string * FsNode)) : list string :=
         match names with
         | [] => []
         | (name, child) :: rest => found (Join path name) child ++ below rest
         end) entries
  | _ => []
  end.

(** The paths handed to the notification source, and those it took. *)
Definition adds (log : list Call) : list string :=
  omap (fun c => match c with CWatcherAdd path _ => Some path | _ => None end) log.

Definition registered (log : list Call) : list string :=
  omap (fun c => match c with CWatcherAdd path None => Some path | _ => None end) log.

(** What a stretch of the walk under a new directory [root] does, from the
    registration set and receiver [s] to [s'], when [paths] are the
    directories it came to: it hands to the notification source only
    directories among [paths] that are not [root], not excluded and not in
    the set; it leaves none of those out that is not in the set; the set
    grows by the paths the source took; and none is taken twice. *)
Definition walked `{Runtime} (root : string) (paths : list string)
    (s s' : gset string * DevWatch) : Prop :=
  exists log,
    calls (snd s') = calls (snd s) ++ log /\
    (forall p, p ∈ adds log ->
       p ∈ paths /\ p <> root /\ Contain p = false /\ p ∉ fst s) /\
    (forall p, p ∈ paths -> p <> root -> Contain p = false ->
       p ∈ fst s \/ p ∈ adds log) /\
    (forall p, p ∈ fst s' <-> p ∈ fst s \/ p ∈ registered log) /\
    NoDup (registered log).

(** ** Vocabulary of the further properties *)

(** The deadlines the reload timer was armed for, the handlers the oracle
    was asked about, and the handlers that were called. *)
Definition arms (log : list Call) : list Time :=
  omap (fun c => match c with CTimerArm d => Some d | _ => None end) log.

Definition asked (log : list Call) : list nat :=
  omap (fun c => match c with CThisFileIsMine i _ _ => Some i | _ => None end) log.

Definition invoked (log : list Call) : list nat :=
  omap (fun c => match c with CNewFileEvent i _ => Some i | _ => None end) log.

(** The calls [handleDirectoryEvent] makes. *)
Definition directoryCall (c : Call) : bool :=
  match c with
  | CNewFolderEvent _ _ _ => true
  | CLogger _ => true
  | CContain _ _ => true
  | CWatcherAdd _ _ => true
  | _ => false
  end.

(** What the [select] receives when [watchEvents] returns: a closed
    channel, or the exit signal. *)
Definition stops (r : Received) : bool :=
  match r with
  | FromEvents None => true
  | FromErrors false => true
  | FromExitChan => true
  | _ => false
  end.

(** An error value from the notification source. *)
Definition isErrorValue (r : Received) : bool :=
  match r with
  | FromErrors true => true
  | _ => false
  end.

(** The paths of the events in what the loop receives. *)
Definition eventNames (rs : list Received) : list string :=
  omap (fun r => match r with FromEvents (Some event) => Some (Name event) | _ => None end) rs.

(** What a turn of the loop on [event] does to the receiver, [log] being
    the calls it makes: it calls no reload and leaves the goroutine alone;
    it hands paths to the notification source only on a create that is not
    a delete, and only paths that are not excluded; it leaves the timer as
    it was or arms it once, the deadline logged; it leaves the records as
    they were or overwrites the record of the path of the event. *)
Definition turnOf `{Runtime} (event : Event) (h h' : DevWatch) (log : list Call) : Prop :=
  calls h' = calls h ++ log /\
  consumer h' = consumer h /\
  reloads log = [] /\
  (forall p, p ∈ adds log ->
     isDelete event = false /\ ToLower (Op event) = "create"%string /\ Contain p = false) /\
  ((arms log = [] /\ reloadTimer h' = reloadTimer h) \/
   (exists d timer, arms log = [d] /\ reloadTimer h' = Some timer /\ when timer = Some d)) /\
  (lastEventInfo h' = lastEventInfo h \/
   exists k, lastEventInfo h' = <[Name event := k]> (lastEventInfo h)).

(** The turns of the [select] that make no call to a handler. *)
Ltac frame_trivial :=
  split; [done|]; split; [done|]; split; [eauto|];
  split; [intros ? Hp; cbn in Hp; in_log|];
  split; [cbn; lia|];
  split; [first [done | intros; reflexivity]|];
  by left.

(** The calls the file part of the loop makes. *)
Definition fileCall (c : Call) : bool :=
  match c with
  | CHash _ _ => true
  | CThisFileIsMine _ _ _ => true
  | CNewFileEvent _ _ => true
  | CTimerArm _ => true
  | _ => false
  end.

(** ** Properties *)

Section Properties.
Context `{Runtime}.
Variable cfg : WatchConfig.

(** Saturation does not change how an elapsed time compares with the
    debounce window. *)
Lemma Sub_within_window (t u : Time) :
  (Sub t u <=? debounceWindow) = (t - u <=? 50 * Millisecond).
Proof.
  unfold Sub, debounceWindow, minDuration, maxDuration, Millisecond.
  repeat case_match; lia.
Qed.

Lemma bind_eq {S A B} (m : State S A) (k : A -> State S B) (s : S) :
  (x <- m ;; k x) s = k (fst (m s)) (snd (m s)).
Proof. unfold bind. by destruct (m s). Qed.

(** C1. Content-aware debounce.  With [t] the clock reading taken for
    the event: a path without a record is processed; a path whose record
    is more than 50 ms old is processed, and the test leaves the state as
    it was, so no fingerprint is computed for it; within 50 ms the
    fingerprint of the file is computed, and the event is processed if it
    differs from the stored one and skipped if it is equal to it. *)
Theorem content_aware_debounce (fileName : string) (event : Event)
    (eventType : string) (isDeleteEvent : bool) (h : DevWatch) :
  let name := Name event in
  let t := time_Now (world h) in
  let process : State DevWatch unit :=
    (handleFileEvent cfg fileName name eventType isDeleteEvent ;;
     hash <- calculateFileHash name ;;
     setRecord name {| lastTime := t; lastHash := hash |}) in
  match lastEventInfo h !! name with
  | None =>
      shouldProcess name t h = (true, h) /\
      fileEvent cfg fileName event eventType isDeleteEvent h = process h
  | Some last =>
      if 50 * Millisecond <? t - lastTime last then
        shouldProcess name t h = (true, h) /\
        fileEvent cfg fileName event eventType isDeleteEvent h = process h
      else
        let (currentHash, h1) := calculateFileHash name h in
        shouldProcess name t h = (negb (bool_decide (currentHash = lastHash last)), h1) /\
        if bool_decide (currentHash = lastHash last)
        then fileEvent cfg fileName event eventType isDeleteEvent h = (tt, h1)
        else fileEvent cfg fileName event eventType isDeleteEvent h = process h1
  end.
Proof.
  intros name t process.
  unfold fileEvent, now. fold name. rewrite bind_eq. cbn [fst snd]. fold t.
  rewrite bind_eq.
  unfold shouldProcess, getRecord. rewrite bind_eq. cbn [fst snd].
  destruct (lastEventInfo h !! name) as [last|] eqn:Hlast.
  - rewrite Sub_within_window.
    destruct (50 * Millisecond <? t - lastTime last) eqn:Hold.
    + assert ((t - lastTime last <=? 50 * Millisecond) = false) as -> by lia.
      split; reflexivity.
    + assert ((t - lastTime last <=? 50 * Millisecond) = true) as -> by lia.
      rewrite bind_eq.
      destruct (calculateFileHash name h) as [currentHash h1] eqn:Hhash.
      cbn [fst snd]. unfold ret.
      destruct (bool_decide (currentHash = lastHash last)); cbn [fst snd negb];
        split; reflexivity.
  - split; reflexivity.
Qed.

Lemma extends_refl (h : DevWatch) : extends h h [].
Proof. unfold extends. rewrite app_nil_r. done. Qed.

Lemma extends_trans (h1 h2 h3 : DevWatch) (l1 l2 : list Call) :
  extends h1 h2 l1 -> extends h2 h3 l2 -> extends h1 h3 (l1 ++ l2).
Proof.
  unfold extends. intros (?&?&?&?) (?&?&?&?).
  repeat split; try congruence.
  rewrite app_assoc. congruence.
Qed.

Lemma call_extends {A} (f : World -> A * World) (log : A -> Call) (h : DevWatch) :
  extends h (snd (call f log h)) [log (fst (call f log h))] /\
  fst (call f log h) = fst (f (world h)) /\
  world (snd (call f log h)) = snd (f (world h)).
Proof. unfold call, extends. destruct (f (world h)); cbn. done. Qed.

(** [scheduleReload] arms the timer at 50 ms from the clock reading, logs
    it, and touches nothing else. *)
Lemma scheduleReload_effect (h : DevWatch) :
  let h' := snd (scheduleReload h) in
  world h' = world h /\
  consumer h' = consumer h /\
  lastEventInfo h' = lastEventInfo h /\
  calls h' = calls h ++ [CTimerArm (time_Now (world h) + wait)] /\
  exists timer, reloadTimer h' = Some timer /\ when timer = Some (time_Now (world h) + wait).
Proof.
  unfold scheduleReload, now, getTimer, bind. cbn.
  destruct (reloadTimer h) as [timer|]; cbn.
  - destruct (bool_decide (is_Some (when timer))); cbn; repeat split; eauto.
  - repeat split; eauto.
Qed.

Section DispatchProperties.
Variables (fileName eventName eventType : string) (isDeleteEvent : bool).

Local Abbreviation ext := (extension eventName).
Local Abbreviation oracle := (negb isDeleteEvent && String.eqb ext ".go").
Local Abbreviation applicable handler := (Contains (SupportedExtensions handler) ext).

(** The body of the loop, case by case: the handler does not declare the
    extension; the oracle is asked and says no or fails; the handler is
    called. *)
Lemma oneHandler_cases (i : nat) (handler : FilesEventHandlers)
    (flags : bool * bool) (h : DevWatch) :
  let r := oneHandler fileName eventName eventType isDeleteEvent i handler flags h in
  exists log,
    extends h (snd r) log /\
    ((applicable handler = false /\ log = [] /\ fst r = flags) \/
     (applicable handler = true /\ oracle = true /\
      exists m e, log = [CThisFileIsMine i m e] /\ (m = false \/ e <> None) /\ fst r = flags) \/
     (applicable handler = true /\
      exists err,
        log = (if oracle then [CThisFileIsMine i true None] else []) ++ [CNewFileEvent i err] /\
        fst r = match err with
                | None => (true, if isGoFileEvent eventName then true else snd flags)
                | Some _ => flags
                end)).
Proof.
  intros r. subst r. unfold oneHandler.
  destruct (applicable handler) eqn:Happ; cbn [negb].
  2:{ exists []. split; [apply extends_refl|]. left. done. }
  destruct oracle eqn:Horacle.
  - rewrite bind_eq.
    pose proof (call_extends
      (ThisFileIsMine (MainInputFileRelativePath handler) eventName eventType)
      (fun r => CThisFileIsMine i (fst r) (snd r)) h) as (Hext & Hres & _).
    destruct (call _ _ h) as [[m e] h1]. cbn [fst snd] in *.
    destruct e as [e|].
    + exists [CThisFileIsMine i m (Some e)]. split; [done|].
      right; left. repeat split; try done. exists m, (Some e). repeat split; try done. by right.
    + destruct m.
      * rewrite bind_eq.
        pose proof (call_extends
          (NewFileEvent handler fileName ext eventName eventType)
          (CNewFileEvent i) h1) as (Hext2 & _ & _).
        destruct (call _ _ h1) as [err h2]. cbn [fst snd] in *.
        exists ([CThisFileIsMine i true None] ++ [CNewFileEvent i err]).
        split.
        { destruct err; unfold ret; cbn [fst snd]; eapply extends_trans; eauto. }
        right; right. split; [done|]. exists err. split; [done|].
        destruct err; reflexivity.
      * exists [CThisFileIsMine i false None]. split; [done|].
        right; left. repeat split; try done. exists false, None. repeat split; try done. by left.
  - rewrite bind_eq. cbv [ret]. cbn [fst snd].
    rewrite bind_eq.
    pose proof (call_extends
      (NewFileEvent handler fileName ext eventName eventType)
      (CNewFileEvent i) h) as (Hext2 & _ & _).
    destruct (call _ _ h) as [err h2]. cbn [fst snd] in *.
    exists ([] ++ [CNewFileEvent i err]). split.
    { destruct err; cbn [fst snd app]; done. }
    right; right. split; [done|]. exists err. split; [done|].
    destruct err; reflexivity.
Qed.

(** What one turn of the loop logs and how it moves the two flags. *)
Lemma oneHandler_spec (i : nat) (handler : FilesEventHandlers)
    (flags : bool * bool) (h : DevWatch) :
  let r := oneHandler fileName eventName eventType isDeleteEvent i handler flags h in
  exists log,
    extends h (snd r) log /\
    (forall c, c ∈ log -> handlerIndex c = Some i) /\
    (applicable handler = true ->
     if oracle
     then exists m e, CThisFileIsMine i m e ∈ log /\
            ((exists err, CNewFileEvent i err ∈ log) <-> m = true /\ e = None)
     else exists err, CNewFileEvent i err ∈ log) /\
    (forall err, CNewFileEvent i err ∈ log ->
       applicable handler = true /\ (oracle = true -> CThisFileIsMine i true None ∈ log)) /\
    (fst (fst r) = true <-> fst flags = true \/ CNewFileEvent i None ∈ log) /\
    (snd (fst r) = true <->
       snd flags = true \/ (isGoFileEvent eventName = true /\ CNewFileEvent i None ∈ log)).
Proof.
  intros r.
  destruct (oneHandler_cases i handler flags h) as (log & Hext & Hcases).
  fold r in Hext, Hcases. exists log. split; [done|].
  destruct Hcases as [(Happ & -> & ->) | [(Happ & Hor & m & e & -> & Hno & ->) | (Happ & err & -> & ->)]].
  - repeat split; intros; in_log; try done; try congruence; try tauto.
  - rewrite Hor. repeat split; intros; in_log; subst; try done; try congruence; try tauto.
    all: eexists _, _; (split; [log_has|]); split; intros; in_log; subst; try done; try congruence.
  - destruct oracle eqn:Hor, err as [e|], (isGoFileEvent eventName) eqn:Hgo; cbn [app fst snd].
    all: repeat split; intros; in_log; subst; try discriminate.
    all: try solve [ done | left; done | right; log_has | right; split; [done | log_has] | log_has
                   | eexists; log_has
                   | exists true, None; split; [log_has|]; split; [done | intros _; eexists; log_has] ].
Qed.

(** The whole loop over the handlers registered from index [i] on. *)
Lemma rangeHandlers_spec (handlers : list FilesEventHandlers) :
  forall (i : nat) (flags : bool * bool) (h : DevWatch),
  let r := rangeHandlers fileName eventName eventType isDeleteEvent i handlers flags h in
  exists log,
    extends h (snd r) log /\
    (forall c, c ∈ log ->
       exists k, handlerIndex c = Some k /\ (i <= k < i + length handlers)%nat) /\
    (forall j handler,
       handlers !! j = Some handler -> applicable handler = true ->
       if oracle
       then exists m e, CThisFileIsMine (i + j) m e ∈ log /\
              ((exists err, CNewFileEvent (i + j) err ∈ log) <-> m = true /\ e = None)
       else exists err, CNewFileEvent (i + j) err ∈ log) /\
    (forall k err, CNewFileEvent k err ∈ log ->
       exists j handler,
         k = (i + j)%nat /\ handlers !! j = Some handler /\ applicable handler = true /\
         (oracle = true -> CThisFileIsMine k true None ∈ log)) /\
    (fst (fst r) = true <-> fst flags = true \/ exists k, CNewFileEvent k None ∈ log) /\
    (snd (fst r) = true <->
       snd flags = true \/
       (isGoFileEvent eventName = true /\ exists k, CNewFileEvent k None ∈ log)).
Proof.
  induction handlers as [|handler rest IH]; intros i flags h r.
  - exists []. subst r. cbn. split; [apply extends_refl|].
    repeat split; intros; in_log; try done; try tauto.
  - subst r. cbn [rangeHandlers]. rewrite bind_eq.
    destruct (oneHandler_spec i handler flags h) as (log1 & E1 & I1 & C1 & V1 & F1 & G1).
    destruct (oneHandler fileName eventName eventType isDeleteEvent i handler flags h)
      as [flags1 h1]. cbn [fst snd] in *.
    destruct (IH (S i) flags1 h1) as (log2 & E2 & I2 & C2 & V2 & F2 & G2).
    exists (log1 ++ log2). split; [eapply extends_trans; eauto|].
    assert (Hfresh : forall c, c ∈ log2 -> handlerIndex c <> Some i).
    { intros c Hc Hi. destruct (I2 c Hc) as (k & Hk & Hrange). rewrite Hi in Hk.
      injection Hk as ->. lia. }
    split; [|split; [|split; [|split]]].
    + intros c [Hc|Hc]%elem_of_app.
      * exists i. split; [by apply I1|]. cbn [length]. lia.
      * destruct (I2 c Hc) as (k & Hk & Hrange). exists k. split; [done|]. cbn [length]. lia.
    + intros [|j] handler' Hlook Happ; cbn in Hlook.
      * injection Hlook as <-. rewrite Nat.add_0_r. specialize (C1 Happ).
        destruct oracle.
        -- destruct C1 as (m & e & Hin & Hiff). exists m, e.
           split; [apply elem_of_app; by left|]. rewrite <- Hiff. split.
           ++ intros [err [Herr|Herr]%elem_of_app]; [by exists err|].
              by destruct (Hfresh _ Herr).
           ++ intros [err Herr]. exists err. apply elem_of_app. by left.
        -- destruct C1 as [err Herr]. exists err. apply elem_of_app. by left.
      * replace (i + S j)%nat with (S i + j)%nat by lia.
        specialize (C2 j handler' Hlook Happ). destruct oracle.
        -- destruct C2 as (m & e & Hin & Hiff). exists m, e.
           split; [apply elem_of_app; by right|]. rewrite <- Hiff. split.
           ++ intros [err [Herr|Herr]%elem_of_app]; [|by exists err].
              apply I1 in Herr. cbn in Herr. injection Herr as Herr. lia.
           ++ intros [err Herr]. exists err. apply elem_of_app. by right.
        -- destruct C2 as [err Herr]. exists err. apply elem_of_app. by right.
    + intros k err [Hin|Hin]%elem_of_app.
      * pose proof (I1 _ Hin) as Hk. cbn in Hk. injection Hk as ->.
        destruct (V1 err Hin) as [Happ Hmine].
        exists 0%nat, handler. rewrite Nat.add_0_r. repeat split; try done.
        intros Hor. apply elem_of_app. left. by apply Hmine.
      * destruct (V2 k err Hin) as (j & handler' & -> & Hlook & Happ & Hmine).
        exists (S j), handler'. repeat split; try done; [lia|].
        intros Hor. apply elem_of_app. right. by apply Hmine.
    + rewrite F2, F1. split.
      * intros [[?|Hin]|[k Hin]]; [by left| |].
        -- right. exists i. apply elem_of_app. by left.
        -- right. exists k. apply elem_of_app. by right.
      * intros [?|[k [Hin|Hin]%elem_of_app]]; [by left; left| |].
        -- pose proof (I1 _ Hin) as Hk. cbn in Hk. injection Hk as ->. left. by right.
        -- right. by exists k.
    + rewrite G2, G1. split.
      * intros [[?|[Hgo Hin]]|[Hgo [k Hin]]]; [by left| |].
        -- right. split; [done|]. exists i. apply elem_of_app. by left.
        -- right. split; [done|]. exists k. apply elem_of_app. by right.
      * intros [?|[Hgo [k [Hin|Hin]%elem_of_app]]]; [by left; left| |].
        -- pose proof (I1 _ Hin) as Hk. cbn in Hk. injection Hk as ->. left. by right.
        -- right. split; [done|]. by exists k.
Qed.

(** C3. Dispatch and the reload rule, on the calls [handleFileEvent] logs.
    Every registered handler that declares the extension of the event is
    considered, whatever the handlers before it returned: on a .go event
    that is not a delete the oracle is asked about it, and it is called
    exactly when the oracle says, without error, that the file is its own;
    on any other event it is called.  Only such handlers are called.  The
    reload timer is armed if and only if one of these calls of
    [NewFileEvent] returned nil. *)
Theorem dispatch_and_reload_rule (h : DevWatch) :
  let r := handleFileEvent cfg fileName eventName eventType isDeleteEvent h in
  exists log,
    calls (snd r) = calls h ++ log /\
    (forall j handler,
       Handlers cfg !! j = Some handler -> applicable handler = true ->
       if oracle
       then exists m e, CThisFileIsMine j m e ∈ log /\
              ((exists err, CNewFileEvent j err ∈ log) <-> m = true /\ e = None)
       else exists err, CNewFileEvent j err ∈ log) /\
    (forall j err, CNewFileEvent j err ∈ log ->
       exists handler,
         Handlers cfg !! j = Some handler /\ applicable handler = true /\
         (oracle = true -> CThisFileIsMine j true None ∈ log)) /\
    ((exists deadline, CTimerArm deadline ∈ log) <-> exists j, CNewFileEvent j None ∈ log).
Proof.
  intros r. subst r. unfold handleFileEvent. rewrite bind_eq.
  destruct (rangeHandlers_spec (Handlers cfg) 0 (false, false) h)
    as (log & (Hcalls & _) & Hidx & Hcons & Hinv & Hfst & Hsnd).
  destruct (rangeHandlers _ _ _ _ 0 (Handlers cfg) (false, false) h) as [[p g] h1].
  cbn [fst snd] in *.
  assert (Hnoarm : forall d, CTimerArm d ∈ log -> False).
  { intros d Hd. destruct (Hidx _ Hd) as (k & Hk & _). discriminate. }
  assert (Hcond : (isGoFileEvent eventName && g || negb (isGoFileEvent eventName) && p) = p).
  { destruct p, g, (isGoFileEvent eventName) eqn:Hgo; try reflexivity; exfalso.
    - assert (false = true) as [=]. apply Hsnd. right. split; [done|].
      by destruct (proj1 Hfst eq_refl).
    - destruct (proj1 Hsnd eq_refl) as [?|[_ Hk]]; [done|].
      assert (false = true) as [=]. apply Hfst. by right. }
  rewrite Hcond. destruct p.
  - destruct (scheduleReload_effect h1) as (_ & _ & _ & Harm & _).
    exists (log ++ [CTimerArm (time_Now (world h1) + wait)]).
    split; [rewrite Harm, Hcalls, app_assoc; done|].
    split; [|split; [|split]].
    + intros j handler Hlook Happ. specialize (Hcons j handler Hlook Happ). cbn in Hcons.
      destruct oracle.
      * destruct Hcons as (m & e & Hin & Hiff). exists m, e.
        split; [apply elem_of_app; by left|]. rewrite <- Hiff. split.
        -- intros [err [Herr|Herr%list_elem_of_singleton]%elem_of_app]; [by exists err|done].
        -- intros [err Herr]. exists err. apply elem_of_app. by left.
      * destruct Hcons as [err Herr]. exists err. apply elem_of_app. by left.
    + intros j err [Hin|Hin%list_elem_of_singleton]%elem_of_app; [|done].
      destruct (Hinv j err Hin) as (j' & handler & -> & Hlook & Happ & Hmine).
      exists handler. repeat split; try done. intros Hor. apply elem_of_app. left. by apply Hmine.
    + intros _. destruct (proj1 Hfst eq_refl) as [?|[k Hk]]; [done|].
      exists k. apply elem_of_app. by left.
    + intros _. eexists. apply elem_of_app. right. apply list_elem_of_here.
  - exists log. unfold ret. cbn [snd]. split; [done|].
    split; [|split; [|split]].
    + intros j handler Hlook Happ. apply (Hcons j handler Hlook Happ).
    + intros j err Hin. destruct (Hinv j err Hin) as (j' & handler & -> & Hlook & Happ & Hmine).
      exists handler. done.
    + intros [d Hd]. by destruct (Hnoarm d).
    + intros Hk. assert (false = true) as [=]. apply Hfst. by right.
Qed.

(** Dispatch leaves the debounce records alone. *)
Lemma handleFileEvent_records (h : DevWatch) :
  lastEventInfo (snd (handleFileEvent cfg fileName eventName eventType isDeleteEvent h))
  = lastEventInfo h.
Proof.
  unfold handleFileEvent. rewrite bind_eq.
  destruct (rangeHandlers_spec (Handlers cfg) 0 (false, false) h)
    as (log & (_ & _ & _ & Hrec) & _).
  destruct (rangeHandlers _ _ _ _ 0 (Handlers cfg) (false, false) h) as [[p g] h1].
  cbn [fst snd] in *.
  destruct (_ || _).
  - destruct (scheduleReload_effect h1) as (_ & _ & Hrec' & _). congruence.
  - done.
Qed.
End DispatchProperties.

Lemma calculateFileHash_eq (path : string) (h : DevWatch) :
  calculateFileHash path h =
  (hashOf (fst (os_Read path (world h))),
   {| world := snd (os_Read path (world h)); reloadTimer := reloadTimer h;
      consumer := consumer h; lastEventInfo := lastEventInfo h;
      calls := calls h ++ [CHash path (hashOf (fst (os_Read path (world h))))] |}).
Proof.
  unfold calculateFileHash, call, bind, ret. by destruct (os_Read path (world h)).
Qed.

Lemma shouldProcess_extends (name : string) (t : Time) (h : DevWatch) :
  exists log,
    extends h (snd (shouldProcess name t h)) log /\
    (log = [] \/ exists hash, log = [CHash name hash]).
Proof.
  unfold shouldProcess, getRecord. rewrite bind_eq. cbn [fst snd].
  destruct (lastEventInfo h !! name) as [last|].
  - destruct (Sub t (lastTime last) <=? debounceWindow).
    + rewrite bind_eq, calculateFileHash_eq. cbn [fst snd].
      eexists. split; [|right; eauto].
      destruct (bool_decide _); unfold ret; cbn; done.
    + exists []. split; [apply extends_refl|by left].
  - exists []. split; [apply extends_refl|by left].
Qed.

(** C2. The record is written after dispatch.  The debounce test leaves
    the records as they stood before the event, and it is on them that the
    event is skipped or processed.  For a processed event the records are
    still untouched when dispatch to all handlers has returned; the last
    call of the turn is the read of the file for its fingerprint, made in
    the world that dispatch left; then the record of the path, and only
    it, is overwritten with that fingerprint and the clock reading taken
    before the test.  A skipped event leaves the records alone. *)
Theorem record_after_dispatch (fileName : string) (event : Event)
    (eventType : string) (isDeleteEvent : bool) (h : DevWatch) :
  let name := Name event in
  let t := time_Now (world h) in
  let decision := shouldProcess name t h in
  let dispatched :=
    snd (handleFileEvent cfg fileName name eventType isDeleteEvent (snd decision)) in
  let final := snd (fileEvent cfg fileName event eventType isDeleteEvent h) in
  let fingerprint := hashOf (fst (os_Read name (world dispatched))) in
  lastEventInfo (snd decision) = lastEventInfo h /\
  if fst decision then
    lastEventInfo dispatched = lastEventInfo h /\
    calls final = calls dispatched ++ [CHash name fingerprint] /\
    lastEventInfo final =
      <[name := {| lastTime := t; lastHash := fingerprint |}]> (lastEventInfo h)
  else
    final = snd decision.
Proof.
  intros name t decision dispatched final fingerprint.
  destruct (shouldProcess_extends name t h) as (log & (_ & _ & _ & Hrec) & _).
  fold decision in Hrec. split; [done|].
  subst final. unfold fileEvent, now. rewrite bind_eq. cbn [fst snd].
  fold name t. rewrite bind_eq. fold decision.
  destruct (fst decision); cbn [negb].
  - rewrite bind_eq. fold dispatched. rewrite bind_eq, calculateFileHash_eq.
    cbn [fst snd]. fold fingerprint.
    assert (lastEventInfo dispatched = lastEventInfo h) as Hd.
    { subst dispatched. rewrite handleFileEvent_records. done. }
    repeat split; [done|]. cbn. by rewrite Hd.
  - reflexivity.
Qed.

(** C9. An error of the ownership oracle skips the handler.  On a .go
    event that is not a delete, for a handler that declares .go: if
    [ThisFileIsMine] returns an error, the turn of the loop for this
    handler logs the question and nothing else, [NewFileEvent] is not
    called, the flags stay as they were, and the loop goes on with the
    handlers that follow. *)
Theorem oracle_error_skips_handler (fileName eventName eventType : string)
    (i : nat) (handler : FilesEventHandlers) (rest : list FilesEventHandlers)
    (flags : bool * bool) (h : DevWatch) (isMine : bool) (e : string) (w : World) :
  Ext Separator eventName = ".go"%string ->
  Contains (SupportedExtensions handler) ".go" = true ->
  ThisFileIsMine (MainInputFileRelativePath handler) eventName eventType (world h)
    = ((isMine, Some e), w) ->
  rangeHandlers fileName eventName eventType false i (handler :: rest) flags h =
  rangeHandlers fileName eventName eventType false (S i) rest flags
    {| world := w; reloadTimer := reloadTimer h; consumer := consumer h;
       lastEventInfo := lastEventInfo h;
       calls := calls h ++ [CThisFileIsMine i isMine (Some e)] |}.
Proof.
  intros Hgo Happ Herr.
  cbn [rangeHandlers]. rewrite bind_eq. unfold oneHandler, extension.
  rewrite Hgo, Happ. cbn [negb andb]. rewrite String.eqb_refl.
  rewrite bind_eq. unfold call. rewrite Herr. reflexivity.
Qed.

Lemma handleFileEvent_log (fileName eventName eventType : string)
    (isDeleteEvent : bool) (h : DevWatch) :
  exists log,
    calls (snd (handleFileEvent cfg fileName eventName eventType isDeleteEvent h))
      = calls h ++ log /\
    forall c, c ∈ log -> isPathCheck c = false.
Proof.
  unfold handleFileEvent. rewrite bind_eq.
  destruct (rangeHandlers_spec fileName eventName eventType isDeleteEvent
              (Handlers cfg) 0 (false, false) h)
    as (log & (Hcalls & _) & Hidx & _).
  destruct (rangeHandlers _ _ _ _ 0 (Handlers cfg) (false, false) h) as [[p g] h1].
  cbn [fst snd] in *.
  assert (Hlog : forall c, c ∈ log -> isPathCheck c = false).
  { intros c Hc. destruct (Hidx c Hc) as (k & Hk & _). by destruct c. }
  destruct (_ || _).
  - destruct (scheduleReload_effect h1) as (_ & _ & _ & Harm & _).
    exists (log ++ [CTimerArm (time_Now (world h1) + wait)]).
    split; [rewrite Harm, Hcalls, app_assoc; done|].
    intros c [Hc|Hc%list_elem_of_singleton]%elem_of_app; [by apply Hlog|by subst].
  - exists log. done.
Qed.

Lemma fileEvent_unfold (fileName : string) (event : Event) (eventType : string)
    (isDeleteEvent : bool) (h : DevWatch) :
  let name := Name event in
  let t := time_Now (world h) in
  let decision := shouldProcess name t h in
  let dispatched :=
    snd (handleFileEvent cfg fileName name eventType isDeleteEvent (snd decision)) in
  let fingerprint := hashOf (fst (os_Read name (world dispatched))) in
  fileEvent cfg fileName event eventType isDeleteEvent h =
  if fst decision then
    (tt, {| world := snd (os_Read name (world dispatched));
            reloadTimer := reloadTimer dispatched;
            consumer := consumer dispatched;
            lastEventInfo :=
              <[name := {| lastTime := t; lastHash := fingerprint |}]>
                (lastEventInfo dispatched);
            calls := calls dispatched ++ [CHash name fingerprint] |})
  else (tt, snd decision).
Proof.
  intros name t decision dispatched fingerprint.
  unfold fileEvent, now. rewrite bind_eq. cbn [fst snd]. fold name t.
  rewrite bind_eq. fold decision.
  destruct (fst decision); cbn [negb]; [|reflexivity].
  rewrite bind_eq. fold dispatched. rewrite bind_eq, calculateFileHash_eq.
  reflexivity.
Qed.

Lemma fileEvent_log (fileName : string) (event : Event) (eventType : string)
    (isDeleteEvent : bool) (h : DevWatch) :
  exists log,
    calls (snd (fileEvent cfg fileName event eventType isDeleteEvent h)) = calls h ++ log /\
    forall c, c ∈ log -> isPathCheck c = false.
Proof.
  rewrite fileEvent_unfold.
  destruct (shouldProcess_extends (Name event) (time_Now (world h)) h)
    as (log1 & (Hcalls1 & _) & Hshape).
  assert (Hlog1 : forall c, c ∈ log1 -> isPathCheck c = false).
  { intros c Hc. destruct Hshape as [->|[hash ->]]; in_log; by subst. }
  clear Hshape.
  destruct (fst (shouldProcess (Name event) (time_Now (world h)) h)).
  - destruct (handleFileEvent_log fileName (Name event) eventType isDeleteEvent
                (snd (shouldProcess (Name event) (time_Now (world h)) h)))
      as (log2 & Hcalls2 & Hlog2).
    eexists ((log1 ++ log2) ++ [_]). split.
    + cbn [snd calls]. rewrite Hcalls2, Hcalls1, !app_assoc. reflexivity.
    + intros c Hc. in_log; [by apply Hlog1|by apply Hlog2|by subst].
  - exists log1. done.
Qed.

(** C10. Delete events are not looked at.  For an event whose kind is
    remove or delete the loop goes from the base name straight to debounce
    and dispatch: the turn is the file part of the loop run on the state as
    it was, whatever [Contain] says of the path, and none of the calls it
    logs is an [os.Stat] or a [Contain].  For any other kind, a failed
    [os.Stat] ends the turn after that call, and an excluded path ends it
    after the call of [Contain]. *)
Theorem delete_event_bypass (event : Event) (h : DevWatch) :
  let name := Name event in
  if isDelete event then
    onEvent cfg event h =
      match GetFileName name with
      | None => (tt, h)
      | Some fileName => fileEvent cfg fileName event (ToLower (Op event)) true h
      end /\
    exists log,
      calls (snd (onEvent cfg event h)) = calls h ++ log /\
      forall c, c ∈ log -> isPathCheck c = false
  else
    let (info, h1) := call (os_Stat name) (fun r => CStat name (bool_decide (is_Some r))) h in
    match info with
    | None => onEvent cfg event h = (tt, h1)
    | Some _ => if Contain name then onEvent cfg event h = (tt, snd (contain name h1)) else True
    end.
Proof.
  intros name. unfold isDelete, onEvent. fold name.
  destruct (_ || _) eqn:Hdel; cbn [negb].
  - rewrite bind_eq. cbv [ret]. cbn [fst snd andb].
    destruct (GetFileName name) as [fileName|].
    + split; [reflexivity|]. apply fileEvent_log.
    + split; [reflexivity|]. exists []. cbn [snd]. rewrite app_nil_r. split; [done|].
      intros c Hc. in_log.
  - rewrite bind_eq. unfold statNotContained. rewrite bind_eq.
    destruct (call (os_Stat name) _ h) as [info h1]. cbn [fst snd].
    destruct info as [isDir|]; [|reflexivity].
    unfold contain at 1 2. unfold note, bind, ret. cbn [fst snd].
    destruct (Contain name) eqn:Hc; [|done].
    unfold contain, note, bind, ret. cbn [fst snd]. rewrite Hc. reflexivity.
Qed.

Lemma reloads_app (l1 l2 : list Call) : reloads (l1 ++ l2) = reloads l1 ++ reloads l2.
Proof.
  induction l1 as [|c l1 IH]; [done|].
  destruct c; cbn; rewrite ?IH; done.
Qed.

(** The head of [watchEvents] leaves a receiver without timer with an idle
    timer and the goroutine on it. *)
Lemma startReloadTimer_idle (h : DevWatch) :
  reloadTimer h = None ->
  idle (snd (startReloadTimer h)) /\ consumer (snd (startReloadTimer h)) = true /\
  calls (snd (startReloadTimer h)) = calls h.
Proof.
  intros Hnone. unfold startReloadTimer, getTimer, bind. rewrite Hnone. cbn.
  repeat split. eexists. cbn. done.
Qed.


Section Coalescing.
Variable reload : World -> error * World.
Hypothesis reload_configured : BrowserReload cfg = Some reload.
Hypothesis clock_monotonic : forall w, time_Now w <= time_Now (snd (reload w)).
Variable h0 : DevWatch.
Hypothesis idle_at_start : idle h0.
Hypothesis consumer_at_start : consumer h0 = true.




End Coalescing.


(** ** The walk under a new directory *)

Lemma FsNode_nested_ind (P : FsNode -> Prop) :
  P LstatError -> P RegularFile -> P (Directory None) ->
  (forall entries, Forall (fun e => P (snd e)) entries -> P (Directory (Some entries))) ->
  forall node, P node.
Proof.
  intros Hl Hf Hn Hd. fix IH 1. intros [| |[entries|]]; try assumption.
  apply Hd. induction entries as [|[name child] rest IHrest]; constructor.
  - apply IH.
  - exact IHrest.
Qed.

Lemma registered_adds (log : list Call) (p : string) :
  p ∈ registered log -> p ∈ adds log.
Proof.
  unfold registered, adds. rewrite !list_elem_of_omap.
  intros (c & Hc & Hp). exists c. split; [done|].
  destruct c; try done. by destruct err.
Qed.

Section DirectoryProperties.
Variable root : string.

Lemma walked_nothing (s : gset string * DevWatch) : walked root [] s s.
Proof.
  exists []. rewrite app_nil_r. cbn.
  split; [done|]. split; [|split; [|split]].
  - intros p Hp. in_log.
  - intros p Hp. in_log.
  - intros p. split; [by left|]. intros [?|Hp]; [done|in_log].
  - constructor.
Qed.

Lemma walked_app (ps1 ps2 : list string) (s s1 s2 : gset string * DevWatch) :
  walked root ps1 s s1 -> walked root ps2 s1 s2 -> walked root (ps1 ++ ps2) s s2.
Proof.
  intros (log1 & Hc1 & Ha1 & Hb1 & Hr1 & Hn1) (log2 & Hc2 & Ha2 & Hb2 & Hr2 & Hn2).
  exists (log1 ++ log2). unfold adds, registered in *. rewrite !omap_app.
  split; [rewrite Hc2, Hc1, app_assoc; done|].
  split; [|split; [|split]].
  - intros p [Hp|Hp]%elem_of_app.
    + destruct (Ha1 p Hp) as (? & ? & ? & ?). repeat split; try done.
      apply elem_of_app. by left.
    + destruct (Ha2 p Hp) as (? & ? & ? & Hnew). repeat split; try done.
      * apply elem_of_app. by right.
      * intros Hin. apply Hnew, Hr1. by left.
  - intros p [Hp|Hp]%elem_of_app Hroot Hex.
    + destruct (Hb1 p Hp Hroot Hex) as [?|?]; [by left|].
      right. apply elem_of_app. by left.
    + destruct (Hb2 p Hp Hroot Hex) as [[?|Hreg]%Hr1|?]; [by left| |].
      * right. apply elem_of_app. left. by apply registered_adds.
      * right. apply elem_of_app. by right.
  - intros p. rewrite Hr2, Hr1, elem_of_app. tauto.
  - apply NoDup_app. split; [done|]. split; [|done].
    intros p Hp1 Hp2. apply registered_adds in Hp2.
    destruct (Ha2 p Hp2) as (_ & _ & _ & Hnew). apply Hnew, Hr1. by right.
Qed.

(** The function of the walk on a directory it could list. *)
Lemma walked_silent (path : string) (s : gset string * DevWatch) (log : list Call) :
  adds log = [] ->
  (path = root \/ Contain path = true \/ path ∈ fst s) ->
  walked root [path] s
    (fst s, {| world := world (snd s); reloadTimer := reloadTimer (snd s);
               consumer := consumer (snd s); lastEventInfo := lastEventInfo (snd s);
               calls := calls (snd s) ++ log |}).
Proof.
  intros Hadds Hwhy. exists log. cbn [fst snd calls].
  assert (registered log = []) as Hreg.
  { destruct (registered log) as [|p l] eqn:Hl; [done|].
    assert (p ∈ adds log) as Hp by (apply registered_adds; rewrite Hl; apply list_elem_of_here).
    rewrite Hadds in Hp. in_log. }
  rewrite Hadds, Hreg.
  split; [done|]. split; [|split; [|split]].
  - intros p Hp. in_log.
  - intros p ->%list_elem_of_singleton Hroot Hex.
    destruct Hwhy as [?|[?|?]]; [done|congruence|by left].
  - intros p. split; [by left|]. intros [?|Hp]; [done|in_log].
  - constructor.
Qed.

(** The function of the walk on a directory it could list. *)
Lemma newDirectoryWalkFn_directory (path : string) (s : gset string * DevWatch) :
  walked root [path] s (snd (newDirectoryWalkFn root path (Some true) None s)).
Proof.
  destruct s as [reg h]. unfold newDirectoryWalkFn. cbn [IsDir andb].
  destruct (String.eqb_spec path root) as [->|Hroot]; cbn [negb].
  { unfold ret. cbn [snd].
    pose proof (walked_silent root (reg, h) [] eq_refl (or_introl eq_refl)) as Hw.
    cbn [fst snd] in Hw. rewrite app_nil_r in Hw. by destruct h. }
  rewrite bind_eq. unfold lift, contain, note, bind, ret. cbn [fst snd].
  destruct (Contain path) eqn:Hex; cbn [negb fst snd].
  { apply (walked_silent path (reg, h) [CContain path true] eq_refl). right. by left. }
  unfold addDirectoryToWatcher. cbn [fst snd].
  destruct (bool_decide (path ∈ reg)) eqn:Hreg; cbn [fst snd].
  { apply bool_decide_eq_true in Hreg.
    apply (walked_silent path (reg, h) [CContain path false] eq_refl). right. by right. }
  apply bool_decide_eq_false in Hreg.
  unfold call. cbn [world calls].
  destruct (watcher_Add path (world h)) as [[e|] w]; cbn [fst snd].
  - exists [CContain path false; CWatcherAdd path (Some e)]. cbn.
    rewrite <- app_assoc.
    split; [done|]. split; [|split; [|split]].
    + intros p ->%list_elem_of_singleton. repeat split; try done. apply list_elem_of_here.
    + intros p ->%list_elem_of_singleton _ _. right. apply list_elem_of_here.
    + intros p. split; [by left|]. intros [?|Hp]; [done|in_log].
    + constructor.
  - exists [CContain path false; CWatcherAdd path None]. cbn.
    rewrite <- app_assoc.
    split; [done|]. split; [|split; [|split]].
    + intros p ->%list_elem_of_singleton. repeat split; try done. apply list_elem_of_here.
    + intros p ->%list_elem_of_singleton _ _. right. apply list_elem_of_here.
    + intros p. rewrite elem_of_union, elem_of_singleton, list_elem_of_singleton. tauto.
    + apply NoDup_singleton.
Qed.

Lemma walk_walked (node : FsNode) :
  forall (path : string) (s : gset string * DevWatch),
    walked root (found path node) s (snd (walk (newDirectoryWalkFn root) path node s)).
Proof.
  induction node as [| | |entries IH] using FsNode_nested_ind; intros path s.
  - destruct s. apply walked_nothing.
  - destruct s. apply walked_nothing.
  - destruct s. apply walked_nothing.
  - cbn [walk found]. rewrite bind_eq.
    apply (walked_app [path] _ s _ _ (newDirectoryWalkFn_directory path s)).
    generalize (snd (newDirectoryWalkFn root path (Some true) None s)). clear s.
    induction IH as [|[name child] rest Hchild _ IHrest]; intros s.
    + apply walked_nothing.
    + rewrite bind_eq. eapply walked_app; [apply Hchild|apply IHrest].
Qed.

(** An entry the walk cannot stat, or a directory it cannot list, is as if
    it were not there: what follows it is still found. *)
Lemma found_skips_errors (path name : string) (bad : FsNode)
    (before after : list (string * FsNode)) :
  bad = LstatError \/ bad = Directory None ->
  found path (Directory (Some (before ++ (name, bad) :: after)))
  = found path (Directory (Some (before ++ after))).
Proof.
  intros Hbad. cbn [found]. f_equal.
  induction before as [|[n c] before IH]; cbn [app].
  - destruct Hbad as [-> | ->]; reflexivity.
  - by rewrite IH.
Qed.
End DirectoryProperties.

(** C8. Registration of a new directory tree.  On a directory-create event
    the new directory is handed to the notification source first.  If the
    source takes it, the walk hands over every directory it comes to and
    can list that is not the new directory itself and is not excluded, and
    nothing else; no path is taken twice by the source in one walk; and an
    entry that cannot be read is passed over, the walk going on with the
    entries after it.  If the source refuses the new directory there is no
    walk. *)
Theorem new_directory_registration (fileName eventName : string) (h : DevWatch) :
  let notified := snd (notifyFolderEvents cfg fileName eventName "create" h) in
  let first := watcher_Add eventName (world notified) in
  let tree := os_Tree eventName (snd first) in
  (exists log,
     calls (snd (handleDirectoryEvent cfg fileName eventName "create" h))
       = calls notified ++ CWatcherAdd eventName (fst first) :: log /\
     match fst first with
     | Some _ => log = []
     | None =>
         (forall p, p ∈ adds log ->
            p ∈ found eventName tree /\ p <> eventName /\ Contain p = false) /\
         (forall p, p ∈ found eventName tree -> p <> eventName -> Contain p = false ->
            p ∈ adds log) /\
         NoDup (eventName :: registered log)
     end) /\
  (forall path name bad before after,
     bad = LstatError \/ bad = Directory None ->
     found path (Directory (Some (before ++ (name, bad) :: after)))
     = found path (Directory (Some (before ++ after)))).
Proof.
  intros notified first tree. split; [|intros; by apply found_skips_errors].
  unfold handleDirectoryEvent. rewrite bind_eq. fold notified.
  cbn [String.eqb Ascii.eqb Bool.eqb]. unfold addNewDirectory, addDirectoryToWatcher.
  rewrite bool_decide_eq_false_2 by apply not_elem_of_empty.
  unfold call. fold first. destruct first as [[e|] w] eqn:Hfirst; cbn [fst snd].
  - exists []. done.
  - subst tree. cbn [snd]. unfold Walk. cbn [world].
    set (s1 := ({[eventName]} ∪ ∅, _) : gset string * DevWatch).
    destruct (walk_walked eventName (os_Tree eventName w) eventName s1)
      as (log & Hcalls & Ha & Hb & Hr & Hn).
    destruct (walk (newDirectoryWalkFn eventName) eventName (os_Tree eventName w) s1)
      as [[] [reg2 h2]]. subst s1. cbn [fst snd calls] in *.
    exists log. split; [rewrite Hcalls, <- app_assoc; done|].
    split; [|split].
    + intros p Hp. destruct (Ha p Hp) as (? & ? & ? & _). done.
    + intros p Hp Hroot Hex. destruct (Hb p Hp Hroot Hex) as [Hin|?]; [|done].
      apply elem_of_union in Hin as [Hin%elem_of_singleton|Hin]; [done|].
      by apply not_elem_of_empty in Hin.
    + constructor; [|done]. intros Hin%registered_adds.
      destruct (Ha _ Hin) as (_ & ? & _). done.
Qed.
End Properties.


(** ** Properties of the exclusion predicate *)

Section ExclusionProperties.
Import Exclusion.
Variable sep : ascii.






End ExclusionProperties.


(** ** The code run on the concrete world *)

(** C6. An unreadable file is not always treated as changed.  The file
    [web/old.css] does not exist, so [calculateFileHash] returns the zero
    hash for it.  The first delete notification is dispatched and the zero
    hash is recorded; the second, within the window, computes the zero
    hash again, finds it equal to the stored one, and is skipped: the only
    call it makes is the read of the file. *)
Theorem unreadable_twice_is_skipped :
  let h1 := snd (onEvent Example.config Example.removed Example.started) in
  let h2 := snd (onEvent Example.config Example.removed h1) in
  fst (os_Read "web/old.css" (world h1)) = OpenError /\
  calls h1 = [CNewFileEvent 0 (Some "build failed"%string); CNewFileEvent 3 None;
              CTimerArm (1050 * Millisecond); CHash "web/old.css" zeroHash] /\
  lastEventInfo h1 !! "web/old.css"%string
    = Some {| lastTime := 1000 * Millisecond; lastHash := zeroHash |} /\
  time_Now (world h1) - 1000 * Millisecond <= 50 * Millisecond /\
  shouldProcess "web/old.css" (time_Now (world h1)) h1 = (false, h2) /\
  calls h2 = calls h1 ++ [CHash "web/old.css" zeroHash].
Proof. vm_compute. repeat split; congruence. Qed.

(** The rule behind it: within the window an unreadable file is processed
    exactly when the stored fingerprint is not the zero hash. *)
Lemma unreadable_within_window `{Runtime} (name : string) (t : Time)
    (last : fileEventKey) (h : DevWatch) :
  lastEventInfo h !! name = Some last ->
  t - lastTime last <= 50 * Millisecond ->
  fst (os_Read name (world h)) = OpenError \/ fst (os_Read name (world h)) = CopyError ->
  fst (shouldProcess name t h) = negb (bool_decide (lastHash last = zeroHash)).
Proof.
  intros Hlast Hnear Hread. unfold shouldProcess, getRecord. rewrite bind_eq.
  cbn [fst snd]. rewrite Hlast, Sub_within_window.
  destruct (t - lastTime last <=? 50 * Millisecond) eqn:Hw; [|lia].
  rewrite bind_eq, calculateFileHash_eq. cbn [fst snd].
  assert (hashOf (fst (os_Read name (world h))) = zeroHash) as ->.
  { destruct Hread as [-> | ->]; reflexivity. }
  destruct (bool_decide (zeroHash = lastHash last)) eqn:Heq.
  - apply bool_decide_eq_true in Heq. rewrite <- Heq.
    rewrite bool_decide_eq_true_2; done.
  - apply bool_decide_eq_false in Heq.
    rewrite bool_decide_eq_false_2; [done|congruence].
Qed.


(** The oracle cannot answer for the handler [broken] (index 1): the save
    of [web/main.go] goes on to the handlers after it. *)
Lemma oracle_error_skips_handler_witness :
  Ext "/" "web/main.go" = ".go"%string /\
  Contains (SupportedExtensions Example.broken) ".go" = true /\
  ThisFileIsMine "broken/main.go" "web/main.go" "write" (world Example.started)
    = ((false, Some "no go.mod"%string), world Example.started) /\
  rangeHandlers "main.go" "web/main.go" "write" false 1
    (Example.broken :: [Example.wasm; Example.assets]) (false, false) Example.started
  = rangeHandlers "main.go" "web/main.go" "write" false 2
      [Example.wasm; Example.assets] (false, false)
      {| world := world Example.started;
         reloadTimer := reloadTimer Example.started;
         consumer := consumer Example.started;
         lastEventInfo := lastEventInfo Example.started;
         calls := calls Example.started ++ [CThisFileIsMine 1 false (Some "no go.mod"%string)] |}.
Proof.
  split; [reflexivity|]. split; [reflexivity|]. split; [reflexivity|].
  apply (oracle_error_skips_handler (H := Example.runtime)
           "main.go" "web/main.go" "write" 1 Example.broken
           [Example.wasm; Example.assets] (false, false) Example.started
           false "no go.mod" (world Example.started)); reflexivity.
Defined.



(** The three cases of the debounce on [web/style.css]: the first save is
    dispatched; a second notification at once, the content unchanged, only
    reads the file; a third, 51 ms later, is dispatched without a read
    before dispatch. *)
Example debounce_on_style_sheet :
  let h1 := snd (onEvent Example.config Example.styled Example.started) in
  let h2 := snd (onEvent Example.config Example.styled h1) in
  let fingerprint := copy32 [x62] in
  Example.turn Example.styled Example.started
    = [CStat "web/style.css" true; CContain "web/style.css" false;
       CNewFileEvent 0 (Some "build failed"%string); CNewFileEvent 3 None;
       CTimerArm (1050 * Millisecond); CHash "web/style.css" fingerprint] /\
  Example.turn Example.styled h1
    = [CStat "web/style.css" true; CContain "web/style.css" false;
       CHash "web/style.css" fingerprint] /\
  Example.turn Example.styled (Example.tick (51 * Millisecond) h2)
    = [CStat "web/style.css" true; CContain "web/style.css" false;
       CNewFileEvent 0 (Some "build failed"%string); CNewFileEvent 3 None;
       CTimerArm (1101 * Millisecond); CHash "web/style.css" fingerprint].
Proof. vm_compute. repeat split; reflexivity. Qed.

(** The handler [wasm] rewrites [web/main.go] and takes two seconds: the
    record holds the fingerprint of what it wrote and the clock reading
    from before dispatch. *)
Example record_holds_content_after_dispatch :
  let h1 := snd (onEvent Example.config Example.saved Example.started) in
  hashOf (fst (os_Read "web/main.go" (world Example.started))) = copy32 [x61] /\
  lastEventInfo h1 !! "web/main.go"%string
    = Some {| lastTime := 1000 * Millisecond; lastHash := copy32 [x61; x01] |} /\
  time_Now (world h1) = 3000 * Millisecond.
Proof. vm_compute. repeat split; reflexivity. Qed.

(** A delete below [.git], a path [Contain] excludes, is dispatched and
    arms the reload timer. *)
Example delete_below_hidden_directory :
  Contain (Name Example.removedInGit) = true /\
  Example.turn Example.removedInGit Example.started
    = [CNewFileEvent 0 (Some "build failed"%string); CNewFileEvent 3 None;
       CTimerArm (1050 * Millisecond); CHash ".git/index.css" zeroHash].
Proof. vm_compute. split; reflexivity. Qed.

(** The tree created under [pkg]: [pkg] first, then [a], [a/b] and [c];
    [.git] and what is below it are excluded, [sealed] cannot be listed,
    [gone] cannot be read, [main.go] is a file. *)
Example directories_under_pkg :
  Example.turn Example.created Example.started
    = [CStat "pkg" true; CContain "pkg" false; CWatcherAdd "pkg" None;
       CContain "pkg/a" false; CWatcherAdd "pkg/a" None;
       CContain "pkg/a/b" false; CWatcherAdd "pkg/a/b" None;
       CContain "pkg/.git" true; CContain "pkg/.git/objects" true;
       CContain "pkg/c" false; CWatcherAdd "pkg/c" None] /\
  found "pkg" (os_Tree "pkg" (world Example.started))
    = ["pkg"; "pkg/a"; "pkg/a/b"; "pkg/.git"; "pkg/.git/objects"; "pkg/c"]%string.
Proof. vm_compute. split; reflexivity. Qed.

(** Exit with a tick waiting in the channel calls the reload once; exit
    with the timer armed or idle calls nothing. *)
Example exit_signal :
  let armed := snd (scheduleReload Example.started) in
  let fired := snd (expire (Example.tick (50 * Millisecond) armed)) in
  reloads (calls (snd (onReceive Example.config FromExitChan Example.started))) = [] /\
  reloads (calls (snd (onReceive Example.config FromExitChan armed))) = [] /\
  reloads (calls (snd (onReceive Example.config FromExitChan fired))) = [1050 * Millisecond].
Proof. vm_compute. repeat split; reflexivity. Qed.

(** ** Further properties of the loop *)

Section FurtherProperties.
Context `{Runtime}.
Variable cfg : WatchConfig.

Lemma handler_calls_only (log : list Call) :
  (forall c, c ∈ log -> is_Some (handlerIndex c)) ->
  adds log = [] /\ reloads log = [] /\ arms log = [].
Proof.
  induction log as [|c log IH]; [done|]. intros Hall.
  destruct IH as (Ha & Hr & Hm).
  { intros c' Hc'. apply Hall. by apply list_elem_of_further. }
  destruct (Hall c (list_elem_of_here _ _)) as [k Hk].
  destruct c; try discriminate; cbn; done.
Qed.

Lemma rangeHandlers_unsupported (fileName eventName eventType : string)
    (isDeleteEvent : bool) (handlers : list FilesEventHandlers) :
  (forall handler, handler ∈ handlers ->
     Contains (SupportedExtensions handler) (extension eventName) = false) ->
  forall i flags h,
    rangeHandlers fileName eventName eventType isDeleteEvent i handlers flags h
    = (flags, h).
Proof.
  induction handlers as [|handler rest IH]; intros Hnone i flags h; [done|].
  cbn [rangeHandlers]. rewrite bind_eq. unfold oneHandler.
  rewrite (Hnone handler (list_elem_of_here _ _)). cbn [negb]. unfold ret at 1 2.
  cbn [fst snd]. apply IH. intros handler' Hin. apply Hnone.
  by apply list_elem_of_further.
Qed.

(** X1. An event whose extension no registered handler declares is not
    dispatched at all: [handleFileEvent] returns the receiver as it was,
    with no call made and the reload timer untouched. *)
Theorem unsupported_extension_is_inert (fileName eventName eventType : string)
    (isDeleteEvent : bool) (h : DevWatch) :
  (forall handler, handler ∈ Handlers cfg ->
     Contains (SupportedExtensions handler) (Ext Separator eventName) = false) ->
  handleFileEvent cfg fileName eventName eventType isDeleteEvent h = (tt, h).
Proof.
  intros Hnone. unfold handleFileEvent. rewrite bind_eq.
  rewrite rangeHandlers_unsupported by exact Hnone.
  cbn [fst snd]. rewrite !andb_false_r. reflexivity.
Qed.

Lemma rangeHandlers_unowned (fileName eventName eventType : string)
    (handlers : list FilesEventHandlers) :
  extension eventName = ".go"%string ->
  (forall handler, handler ∈ handlers ->
     Contains (SupportedExtensions handler) ".go" = true ->
     forall w,
       fst (fst (ThisFileIsMine (MainInputFileRelativePath handler) eventName eventType w))
         = false \/
       snd (fst (ThisFileIsMine (MainInputFileRelativePath handler) eventName eventType w))
         <> None) ->
  forall i flags h,
    let r := rangeHandlers fileName eventName eventType false i handlers flags h in
    fst r = flags /\
    exists log, extends h (snd r) log /\ invoked log = [] /\ arms log = [].
Proof.
  intros Hgo. induction handlers as [|handler rest IH]; intros Hnot i flags h.
  - cbn. split; [done|]. exists []. split; [apply extends_refl|done].
  - cbn [rangeHandlers]. rewrite bind_eq.
    assert (Hone : fst (oneHandler fileName eventName eventType false i handler flags h)
                   = flags /\
                   exists log,
                     extends h (snd (oneHandler fileName eventName eventType false i
                                       handler flags h)) log /\
                     invoked log = [] /\ arms log = []).
    { unfold oneHandler. rewrite Hgo.
      destruct (Contains (SupportedExtensions handler) ".go") eqn:Happ; cbn [negb andb].
      2:{ split; [done|]. exists []. split; [apply extends_refl|done]. }
      rewrite String.eqb_refl, bind_eq.
      pose proof (Hnot handler (list_elem_of_here _ _) Happ (world h)) as Hw.
      pose proof (call_extends
        (ThisFileIsMine (MainInputFileRelativePath handler) eventName eventType)
        (fun r => CThisFileIsMine i (fst r) (snd r)) h) as (Hext & Hres & _).
      destruct (call _ _ h) as [[m e] h1]. cbn [fst snd] in *.
      rewrite <- Hres in Hw. cbn [fst snd] in Hw.
      destruct e as [e|].
      - split; [done|]. eexists. split; [exact Hext|done].
      - destruct m; [by destruct Hw|]. split; [done|]. eexists. split; [exact Hext|done]. }
    destruct Hone as (Hflags & log1 & E1 & I1 & A1).
    destruct (oneHandler fileName eventName eventType false i handler flags h)
      as [flags1 h1]. cbn [fst snd] in *. subst flags1.
    destruct (IH (fun handler' Hin => Hnot handler' (list_elem_of_further _ _ _ Hin))
                (S i) flags h1) as (Hflags & log2 & E2 & I2 & A2).
    split; [done|]. exists (log1 ++ log2).
    split; [eapply extends_trans; eauto|].
    unfold invoked, arms in *. rewrite !omap_app, I1, I2, A1, A2. done.
Qed.

(** X2. A saved .go file that no handler owns reaches no handler.  On a
    .go event that is not a delete, if for every handler that declares
    .go the oracle says the file is not its own, or fails, then
    [handleFileEvent] calls no [NewFileEvent], does not arm the reload
    timer and leaves it as it was. *)
Theorem unowned_go_file_is_not_dispatched (fileName eventName eventType : string)
    (h : DevWatch) :
  Ext Separator eventName = ".go"%string ->
  (forall handler, handler ∈ Handlers cfg ->
     Contains (SupportedExtensions handler) ".go" = true ->
     forall w,
       fst (fst (ThisFileIsMine (MainInputFileRelativePath handler) eventName eventType w))
         = false \/
       snd (fst (ThisFileIsMine (MainInputFileRelativePath handler) eventName eventType w))
         <> None) ->
  let h' := snd (handleFileEvent cfg fileName eventName eventType false h) in
  reloadTimer h' = reloadTimer h /\
  exists log, calls h' = calls h ++ log /\ invoked log = [] /\ arms log = [].
Proof.
  intros Hgo Hnot h'. subst h'. unfold handleFileEvent. rewrite bind_eq.
  destruct (rangeHandlers_unowned fileName eventName eventType (Handlers cfg) Hgo Hnot
              0 (false, false) h) as (Hflags & log & (Hcalls & Htimer & _) & Hinv & Harm).
  destruct (rangeHandlers _ _ _ _ 0 (Handlers cfg) (false, false) h) as [flags h1].
  cbn [fst snd] in *. subst flags. rewrite !andb_false_r. unfold ret. cbn.
  split; [done|]. exists log. done.
Qed.

Lemma rangeHandlers_asked (fileName eventName eventType : string)
    (isDeleteEvent : bool) (handlers : list FilesEventHandlers) :
  negb isDeleteEvent && String.eqb (extension eventName) ".go" = false ->
  forall i flags h,
    exists log,
      extends h (snd (rangeHandlers fileName eventName eventType isDeleteEvent i
                        handlers flags h)) log /\
      asked log = [].
Proof.
  intros Hor. induction handlers as [|handler rest IH]; intros i flags h.
  - exists []. split; [apply extends_refl|done].
  - cbn [rangeHandlers]. rewrite bind_eq.
    destruct (oneHandler_cases fileName eventName eventType isDeleteEvent i handler flags h)
      as (log1 & E1 & Hcases).
    destruct (oneHandler fileName eventName eventType isDeleteEvent i handler flags h)
      as [flags1 h1]. cbn [fst snd] in *.
    destruct (IH (S i) flags1 h1) as (log2 & E2 & A2).
    exists (log1 ++ log2). split; [eapply extends_trans; eauto|].
    unfold asked in *. rewrite omap_app, A2, app_nil_r.
    destruct Hcases as [(_ & -> & _) | [(_ & Hbad & _) | (_ & err & -> & _)]].
    + done.
    + congruence.
    + rewrite Hor. done.
Qed.

(** X3. The ownership oracle is asked about saved .go files only.  On a
    delete event, and on an event for any other extension,
    [handleFileEvent] makes no call of [ThisFileIsMine]. *)
Theorem oracle_asked_only_about_go_saves (fileName eventName eventType : string)
    (isDeleteEvent : bool) (h : DevWatch) :
  isDeleteEvent = true \/ Ext Separator eventName <> ".go"%string ->
  exists log,
    calls (snd (handleFileEvent cfg fileName eventName eventType isDeleteEvent h))
      = calls h ++ log /\
    asked log = [].
Proof.
  intros Hwhy.
  assert (Hor : negb isDeleteEvent && String.eqb (extension eventName) ".go" = false).
  { destruct Hwhy as [-> | Hext]; [done|]. apply andb_false_iff. right.
    by apply String.eqb_neq. }
  unfold handleFileEvent. rewrite bind_eq.
  destruct (rangeHandlers_asked fileName eventName eventType isDeleteEvent (Handlers cfg)
              Hor 0 (false, false) h) as (log & (Hcalls & _) & Hasked).
  destruct (rangeHandlers _ _ _ _ 0 (Handlers cfg) (false, false) h) as [[p g] h1].
  cbn [fst snd] in *. destruct (_ || _).
  - destruct (scheduleReload_effect h1) as (_ & _ & _ & Harm & _).
    eexists. split; [rewrite Harm, Hcalls, <- app_assoc; reflexivity|].
    unfold asked in *. rewrite omap_app, Hasked. done.
  - exists log. done.
Qed.

(** What [handleFileEvent] may touch: it registers nothing, calls no
    reload, leaves the goroutine and the records alone, and changes the
    timer only by arming it once, the deadline logged. *)
Lemma handleFileEvent_frame (fileName eventName eventType : string)
    (isDeleteEvent : bool) (h : DevWatch) :
  let h' := snd (handleFileEvent cfg fileName eventName eventType isDeleteEvent h) in
  exists log,
    calls h' = calls h ++ log /\
    consumer h' = consumer h /\
    lastEventInfo h' = lastEventInfo h /\
    adds log = [] /\ reloads log = [] /\
    ((arms log = [] /\ reloadTimer h' = reloadTimer h) \/
     (exists d timer,
        arms log = [d] /\ reloadTimer h' = Some timer /\ when timer = Some d)).
Proof.
  intros h'. subst h'. unfold handleFileEvent. rewrite bind_eq.
  destruct (rangeHandlers_spec fileName eventName eventType isDeleteEvent
              (Handlers cfg) 0 (false, false) h)
    as (log & (Hcalls & Htimer & Hcons & Hrec) & Hidx & _).
  destruct (rangeHandlers _ _ _ _ 0 (Handlers cfg) (false, false) h) as [[p g] h1].
  cbn [fst snd] in *.
  destruct (handler_calls_only log) as (Ha & Hr & Hm).
  { intros c Hc. destruct (Hidx c Hc) as (k & -> & _). done. }
  destruct (_ || _).
  - destruct (scheduleReload_effect h1) as (_ & Hcons' & Hrec' & Harm & timer & Ht & Hwhen).
    eexists. split; [rewrite Harm, Hcalls, <- app_assoc; reflexivity|].
    split; [congruence|]. split; [congruence|].
    unfold adds, arms in *. rewrite reloads_app, !omap_app, Ha, Hr, Hm.
    split; [done|]. split; [done|]. right. eauto.
  - exists log. unfold ret. cbn [snd]. repeat split; try done. by left.
Qed.

Lemma directory_calls_only (log : list Call) :
  (forall c, c ∈ log -> directoryCall c = true) ->
  reloads log = [] /\ arms log = [].
Proof.
  induction log as [|c log IH]; [done|]. intros Hall.
  destruct IH as (Hr & Hm).
  { intros c' Hc'. apply Hall. by apply list_elem_of_further. }
  pose proof (Hall c (list_elem_of_here _ _)) as Hc.
  destruct c; try discriminate; cbn; done.
Qed.

Lemma newDirectoryWalkFn_frame (root path : string) (info : option bool) (err : error)
    (s : gset string * DevWatch) :
  exists log,
    extends (snd s) (snd (snd (newDirectoryWalkFn root path info err s))) log /\
    forall c, c ∈ log -> directoryCall c = true.
Proof.
  destruct s as [reg h]. unfold newDirectoryWalkFn.
  destruct err as [e|].
  { exists []. split; [apply extends_refl|]. intros c Hc. in_log. }
  destruct (IsDir info && negb (String.eqb path root)).
  2:{ exists []. split; [apply extends_refl|]. intros c Hc. in_log. }
  rewrite bind_eq. unfold lift, contain, note, bind, ret. cbn [fst snd].
  destruct (Contain path); cbn [negb fst snd].
  { exists [CContain path true]. split; [done|]. intros c Hc. in_log. by subst. }
  unfold addDirectoryToWatcher. cbn [fst snd].
  destruct (bool_decide (path ∈ reg)); cbn [fst snd].
  { exists [CContain path false]. split; [done|]. intros c Hc. in_log. by subst. }
  unfold call. cbn [world calls].
  destruct (watcher_Add path (world h)) as [[e|] w]; cbn [fst snd].
  - exists [CContain path false; CWatcherAdd path (Some e)].
    split; [unfold extends; cbn; by rewrite <- app_assoc|].
    intros c Hc. in_log; by subst.
  - exists [CContain path false; CWatcherAdd path None].
    split; [unfold extends; cbn; by rewrite <- app_assoc|].
    intros c Hc. in_log; by subst.
Qed.

Lemma walk_frame (root : string) (node : FsNode) :
  forall (path : string) (s : gset string * DevWatch),
    exists log,
      extends (snd s) (snd (snd (walk (newDirectoryWalkFn root) path node s))) log /\
      forall c, c ∈ log -> directoryCall c = true.
Proof.
  induction node as [| | |entries IH] using FsNode_nested_ind; intros path s;
    try apply newDirectoryWalkFn_frame.
  cbn [walk]. rewrite bind_eq.
  destruct (newDirectoryWalkFn_frame root path (Some true) None s) as (log1 & E1 & D1).
  revert E1. generalize (snd (newDirectoryWalkFn root path (Some true) None s)).
  intros s1 E1.
  assert (Hrest : exists log2,
            extends (snd s1)
              (snd (snd ((fix range (names : list (string * FsNode))
                            : State (gset string * DevWatch) unit :=
                           match names with
                           | [] => ret tt
                           | (name, child) :: rest =>
                               walk (newDirectoryWalkFn root) (Join path name) child ;;
                               range rest
                           end) entries s1))) log2 /\
            forall c, c ∈ log2 -> directoryCall c = true).
  { clear E1. revert s1.
    induction IH as [|[name child] rest Hchild _ IHrest]; intros s1.
    - exists []. split; [apply extends_refl|]. intros c Hc. in_log.
    - rewrite bind_eq.
      destruct (Hchild (Join path name) s1) as (la & Ea & Da).
      destruct (IHrest (snd (walk (newDirectoryWalkFn root) (Join path name) child s1)))
        as (lb & Eb & Db).
      exists (la ++ lb). split; [eapply extends_trans; eauto|].
      intros c [Hc|Hc]%elem_of_app; eauto. }
  destruct Hrest as (log2 & E2 & D2).
  exists (log1 ++ log2). split; [eapply extends_trans; eauto|].
  intros c [Hc|Hc]%elem_of_app; eauto.
Qed.

Lemma notifyFolderEvents_frame (fileName eventName eventType : string) (h : DevWatch) :
  exists log,
    extends h (snd (notifyFolderEvents cfg fileName eventName eventType h)) log /\
    (forall c, c ∈ log -> directoryCall c = true) /\
    adds log = [].
Proof.
  unfold notifyFolderEvents. destruct (FolderEvents cfg) as [observer|].
  2:{ exists []. split; [apply extends_refl|]. split; [|done]. intros c Hc. in_log. }
  rewrite bind_eq. unfold call, Logger, note, ret.
  destruct (observer fileName eventName eventType (world h)) as [[e|] w]; cbn [fst snd].
  - exists [CNewFolderEvent fileName eventName eventType; CLogger "Watch folder event error:"].
    split; [unfold extends; cbn; by rewrite <- app_assoc|]. split; [|done].
    intros c Hc. in_log; by subst.
  - exists [CNewFolderEvent fileName eventName eventType].
    split; [done|]. split; [|done]. intros c Hc. in_log. by subst.
Qed.

Lemma addNewDirectory_frame (eventName : string) (h : DevWatch) :
  exists log,
    extends h (snd (addNewDirectory eventName h)) log /\
    (forall c, c ∈ log -> directoryCall c = true) /\
    (forall p, p ∈ adds log -> p = eventName \/ Contain p = false).
Proof.
  unfold addNewDirectory, addDirectoryToWatcher.
  rewrite bool_decide_eq_false_2 by apply not_elem_of_empty.
  unfold call. destruct (watcher_Add eventName (world h)) as [[e|] w]; cbn [fst snd].
  - exists [CWatcherAdd eventName (Some e)]. split; [done|]. split.
    + intros c Hc. in_log. by subst.
    + intros p Hp. cbn in Hp. in_log. by left.
  - unfold Walk. cbn [world].
    set (s1 := ({[eventName]} ∪ ∅, _) : gset string * DevWatch).
    destruct (walk_frame eventName (os_Tree eventName w) eventName s1) as (log & Hext & Hdir).
    destruct (walk_walked eventName (os_Tree eventName w) eventName s1)
      as (log' & Hcalls & Hadds & _).
    destruct (walk (newDirectoryWalkFn eventName) eventName (os_Tree eventName w) s1)
      as [[] [reg2 h2]].
    cbn [fst snd] in *.
    assert (log' = log) as ->.
    { destruct Hext as (Hcalls' & _). rewrite Hcalls' in Hcalls.
      by apply app_inv_head in Hcalls. }
    destruct Hext as (Hc & Ht & Hg & Hr). subst s1. cbn [snd calls reloadTimer consumer
      lastEventInfo] in *.
    exists (CWatcherAdd eventName None :: log). split.
    { unfold extends. rewrite Hc, <- app_assoc. done. }
    split.
    + intros c [->|Hin]%elem_of_cons; [done|by apply Hdir].
    + intros p Hp. cbn in Hp. apply elem_of_cons in Hp as [->|Hp]; [by left|].
      right. by destruct (Hadds p Hp) as (_ & _ & ? & _).
Qed.

(** What [handleDirectoryEvent] may touch: the world and the log; what it
    hands to the notification source, on a create only, is the new
    directory and paths that are not excluded. *)
Lemma handleDirectoryEvent_frame (fileName eventName eventType : string) (h : DevWatch) :
  exists log,
    extends h (snd (handleDirectoryEvent cfg fileName eventName eventType h)) log /\
    (forall c, c ∈ log -> directoryCall c = true) /\
    (forall p, p ∈ adds log ->
       eventType = "create"%string /\ (p = eventName \/ Contain p = false)).
Proof.
  unfold handleDirectoryEvent. rewrite bind_eq.
  destruct (notifyFolderEvents_frame fileName eventName eventType h) as (log1 & E1 & D1 & A1).
  revert E1. generalize (snd (notifyFolderEvents cfg fileName eventName eventType h)).
  intros h1 E1.
  destruct (String.eqb_spec eventType "create") as [->|Hother].
  - destruct (addNewDirectory_frame eventName h1) as (log2 & E2 & D2 & A2).
    exists (log1 ++ log2). split; [eapply extends_trans; eauto|]. split.
    + intros c [Hc|Hc]%elem_of_app; eauto.
    + intros p Hp. unfold adds in Hp. rewrite omap_app in Hp. fold (adds log1) in Hp.
      rewrite A1 in Hp. split; [done|]. by apply A2.
  - exists log1. unfold ret. cbn [snd]. split; [done|]. split; [done|].
    intros p Hp. rewrite A1 in Hp. in_log.
Qed.

Lemma turn_nothing (event : Event) (h : DevWatch) : turnOf event h h [].
Proof.
  unfold turnOf. rewrite app_nil_r.
  split; [done|]. split; [done|]. split; [done|].
  split; [intros p Hp; cbn in Hp; in_log|].
  split; by left.
Qed.

Lemma turn_after (event : Event) (h h1 h' : DevWatch) (log1 log2 : list Call) :
  extends h h1 log1 ->
  adds log1 = [] -> reloads log1 = [] -> arms log1 = [] ->
  turnOf event h1 h' log2 ->
  turnOf event h h' (log1 ++ log2).
Proof.
  intros (Hc & Ht & Hg & Hr) Ha Hl Hm (Hc2 & Hg2 & Hl2 & Ha2 & Ht2 & Hr2).
  unfold turnOf, adds, arms in *. rewrite reloads_app, !omap_app, Ha, Hl, Hm.
  cbn [app]. rewrite <- Ht, <- Hr.
  split; [rewrite Hc2, Hc, app_assoc; done|]. split; [congruence|]. done.
Qed.

Lemma fileEvent_turn (fileName : string) (event : Event) (isDeleteEvent : bool)
    (h : DevWatch) :
  exists log,
    turnOf event h
      (snd (fileEvent cfg fileName event (ToLower (Op event)) isDeleteEvent h)) log.
Proof.
  rewrite fileEvent_unfold.
  destruct (shouldProcess_extends (Name event) (time_Now (world h)) h)
    as (log1 & E1 & Hshape).
  assert (adds log1 = [] /\ reloads log1 = [] /\ arms log1 = []) as (A1 & L1 & M1).
  { destruct Hshape as [->|[hash ->]]; done. }
  clear Hshape.
  destruct (fst (shouldProcess (Name event) (time_Now (world h)) h)).
  - set (h1 := snd (shouldProcess (Name event) (time_Now (world h)) h)) in *.
    destruct (handleFileEvent_frame fileName (Name event) (ToLower (Op event))
                isDeleteEvent h1) as (log2 & Hc2 & Hg2 & Hr2 & A2 & L2 & Ht2).
    set (h2 := snd (handleFileEvent cfg fileName (Name event) (ToLower (Op event))
                      isDeleteEvent h1)) in *.
    set (c := CHash (Name event) (hashOf (fst (os_Read (Name event) (world h2))))).
    assert (Ha : adds (log2 ++ [c]) = []).
    { unfold adds. rewrite omap_app. fold (adds log2). by rewrite A2. }
    assert (Hl : reloads (log2 ++ [c]) = []) by (by rewrite reloads_app, L2).
    assert (Hm : arms (log2 ++ [c]) = arms log2).
    { unfold arms. rewrite omap_app. cbn. by rewrite app_nil_r. }
    exists (log1 ++ (log2 ++ [c])). eapply turn_after; eauto.
    unfold turnOf. cbn [snd calls consumer reloadTimer lastEventInfo].
    rewrite Ha, Hl, Hm.
    split; [by rewrite Hc2, app_assoc|]. split; [done|]. split; [done|].
    split; [intros p Hp; in_log|].
    split; [exact Ht2|]. right. rewrite Hr2. eauto.
  - exists (log1 ++ []). eapply turn_after; eauto. apply turn_nothing.
Qed.

Lemma handleDirectoryEvent_turn (fileName : string) (event : Event) (h : DevWatch) :
  isDelete event = false -> Contain (Name event) = false ->
  exists log,
    turnOf event h
      (snd (handleDirectoryEvent cfg fileName (Name event) (ToLower (Op event)) h)) log.
Proof.
  intros Hdel Hex.
  destruct (handleDirectoryEvent_frame fileName (Name event) (ToLower (Op event)) h)
    as (log & (Hc & Ht & Hg & Hr) & Hdir & Hadds).
  destruct (directory_calls_only log Hdir) as (Hl & Hm).
  exists log. unfold turnOf.
  split; [done|]. split; [done|]. split; [done|].
  split.
  { intros p Hp. destruct (Hadds p Hp) as (Hcreate & [->|?]); done. }
  split; by left.
Qed.

(** A turn of the loop, whatever the event. *)
Lemma onEvent_turn (event : Event) (h : DevWatch) :
  exists log, turnOf event h (snd (onEvent cfg event h)) log.
Proof.
  unfold onEvent. fold (isDelete event).
  destruct (isDelete event) eqn:Hdel; cbn [negb andb].
  - rewrite bind_eq. cbv [ret]. cbn [fst snd].
    destruct (GetFileName (Name event)) as [fileName|].
    + apply fileEvent_turn.
    + exists []. apply turn_nothing.
  - rewrite bind_eq. unfold statNotContained. rewrite bind_eq.
    pose proof (call_extends (os_Stat (Name event))
                  (fun r => CStat (Name event) (bool_decide (is_Some r))) h) as (E1 & _ & _).
    destruct (call (os_Stat (Name event)) _ h) as [info h1]. cbn [fst snd] in *.
    destruct info as [isDir|].
    2:{ eexists (_ ++ []). eapply turn_after; eauto. apply turn_nothing. }
    unfold contain, note, bind, ret. cbn [fst snd].
    destruct (Contain (Name event)) eqn:Hex; cbn [fst snd].
    { eexists (_ ++ ([CContain (Name event) true] ++ [])).
      eapply turn_after; eauto. eapply turn_after; [| | | |apply turn_nothing]; done. }
    set (h2 := {| world := world h1; reloadTimer := reloadTimer h1;
                  consumer := consumer h1; lastEventInfo := lastEventInfo h1;
                  calls := calls h1 ++ [CContain (Name event) false] |}).
    assert (E2 : extends h1 h2 [CContain (Name event) false]) by done.
    destruct (GetFileName (Name event)) as [fileName|].
    2:{ eexists (_ ++ (_ ++ [])).
        eapply turn_after; eauto. eapply turn_after; [exact E2| | | |apply turn_nothing]; done. }
    cbn [IsDir]. destruct isDir.
    + destruct (handleDirectoryEvent_turn fileName event h2 Hdel Hex) as (log & Hturn).
      eexists (_ ++ (_ ++ log)).
      eapply turn_after; eauto. eapply turn_after; [exact E2| | | |exact Hturn]; done.
    + destruct (fileEvent_turn fileName event false h2) as (log & Hturn).
      eexists (_ ++ (_ ++ log)).
      eapply turn_after; eauto. eapply turn_after; [exact E2| | | |exact Hturn]; done.
Qed.

(** One turn of the [select]. *)
Lemma onReceive_frame (r : Received) (h : DevWatch) :
  let h' := snd (onReceive cfg r h) in
  fst (onReceive cfg r h) = negb (stops r) /\
  exists log,
    calls h' = calls h ++ log /\
    consumer h' = consumer h /\
    (is_Some (reloadTimer h) -> is_Some (reloadTimer h')) /\
    (forall p, p ∈ adds log ->
       Contain p = false /\
       exists event,
         r = FromEvents (Some event) /\ isDelete event = false /\
         ToLower (Op event) = "create"%string) /\
    (length (reloads log) <= 1)%nat /\
    (reloads log <> [] -> r = FromExitChan) /\
    (lastEventInfo h' = lastEventInfo h \/
     exists event k,
       r = FromEvents (Some event) /\
       lastEventInfo h' = <[Name event := k]> (lastEventInfo h)).
Proof.
  intros h'. subst h'. destruct r as [[event|]|[|]|]; cbn [onReceive stops negb].
  - rewrite bind_eq. unfold ret. cbn [fst snd]. split; [done|].
    destruct (onEvent_turn event h) as (log & Hc & Hg & Hl & Ha & Ht & Hr).
    exists log. split; [done|]. split; [done|]. split.
    { intros Hsome. destruct Ht as [[_ ->]|(d & timer & _ & -> & _)]; [done|eauto]. }
    split.
    { intros p Hp. destruct (Ha p Hp) as (? & ? & ?). split; [done|]. by exists event. }
    rewrite Hl. split; [cbn; lia|]. split; [done|].
    destruct Hr as [?|[k ?]]; [by left|right; eauto].
  - unfold Logger, note, bind, ret. cbn. split; [done|].
    exists [CLogger "Error h.watcher.Events"]. cbn. frame_trivial.
  - unfold ret. cbn. split; [done|]. exists []. rewrite app_nil_r. cbn. frame_trivial.
  - unfold Logger, note, bind, ret. cbn. split; [done|].
    exists [CLogger "h.watcher.Errors:"]. cbn. frame_trivial.
  - unfold call, stopReload, getTimer, bind, Stop, tryRecv. cbn.
    destruct (reloadTimer h) as [[[deadline|] [tick|]]|]; cbn.
    + split; [done|]. exists [CWatcherClose]. cbn. frame_trivial.
    + split; [done|]. exists [CWatcherClose]. cbn. frame_trivial.
    + unfold triggerBrowserReload. destruct (BrowserReload cfg) as [reload|].
      * unfold now, call, bind, ret. cbn. destruct (reload (watcher_Close (world h))). cbn.
        split; [done|]. eexists [CWatcherClose; CBrowserReload _]. cbn.
        rewrite <- app_assoc. cbn. frame_trivial.
      * cbn. split; [done|]. exists [CWatcherClose]. cbn. frame_trivial.
    + split; [done|]. exists [CWatcherClose]. cbn. frame_trivial.
    + split; [done|]. exists [CWatcherClose]. cbn. frame_trivial.
Qed.

Lemma loop_cons (r : Received) (rest : list Received) (h : DevWatch) :
  loop cfg (r :: rest) h =
  if stops r then (tt, snd (onReceive cfg r h))
  else loop cfg rest (snd (onReceive cfg r h)).
Proof.
  cbn [loop]. rewrite bind_eq.
  destruct (onReceive_frame r h) as [-> _]. by destruct (stops r).
Qed.

(** X4. The loop itself calls the reload action at most once, and only
    when it drains the timer on the exit signal: whatever [watchEvents]
    receives, the turns on events, errors and closed channels call no
    reload. *)
Theorem loop_calls_reload_only_at_exit (rs : list Received) (h : DevWatch) :
  exists fired,
    reloads (calls (snd (loop cfg rs h))) = reloads (calls h) ++ fired /\
    (length fired <= 1)%nat /\
    (fired <> [] -> FromExitChan ∈ rs).
Proof.
  revert h. induction rs as [|r rest IH]; intros h.
  - exists []. rewrite app_nil_r. split; [done|]. split; [cbn; lia|]. congruence.
  - rewrite loop_cons.
    destruct (onReceive_frame r h) as (_ & log & Hc & _ & _ & _ & Hlen & Hexit & _).
    destruct (stops r) eqn:Hstop.
    + exists (reloads log). cbn [snd]. rewrite Hc, reloads_app.
      split; [done|]. split; [done|]. intros Hne. rewrite (Hexit Hne).
      apply list_elem_of_here.
    + assert (reloads log = []) as Hnone.
      { destruct (reloads log) eqn:Hl; [done|]. rewrite Hexit in Hstop; done. }
      destruct (IH (snd (onReceive cfg r h))) as (fired & Hf & Hl & Hin).
      exists fired. rewrite Hf, Hc, reloads_app, Hnone, app_nil_r.
      split; [done|]. split; [done|]. intros Hne. apply list_elem_of_further. by apply Hin.
Qed.

(** X5. Nothing but the new directory of a create event, and what the
    walk finds below it, is handed to the notification source, and no
    excluded path ever is: every path [watcher.Add] is called with in the
    loop is one [Contain] does not hold of, in the turn of an event that is
    a create and not a delete. *)
Theorem loop_registers_only_on_create (rs : list Received) (h : DevWatch) :
  exists log,
    calls (snd (loop cfg rs h)) = calls h ++ log /\
    forall p, p ∈ adds log ->
      Contain p = false /\
      exists event,
        FromEvents (Some event) ∈ rs /\ isDelete event = false /\
        ToLower (Op event) = "create"%string.
Proof.
  revert h. induction rs as [|r rest IH]; intros h.
  - exists []. rewrite app_nil_r. split; [done|]. intros p Hp. cbn in Hp. in_log.
  - rewrite loop_cons.
    destruct (onReceive_frame r h) as (_ & log & Hc & _ & _ & Ha & _).
    assert (Hhere : forall p, p ∈ adds log ->
              Contain p = false /\
              exists event,
                FromEvents (Some event) ∈ r :: rest /\ isDelete event = false /\
                ToLower (Op event) = "create"%string).
    { intros p Hp. destruct (Ha p Hp) as (Hex & event & -> & Hdel & Hcreate).
      split; [done|]. exists event. split; [apply list_elem_of_here|done]. }
    destruct (stops r).
    + exists log. done.
    + destruct (IH (snd (onReceive cfg r h))) as (log2 & Hc2 & Ha2).
      exists (log ++ log2). split; [rewrite Hc2, Hc, app_assoc; done|].
      intros p Hp. unfold adds in Hp. rewrite omap_app in Hp.
      apply elem_of_app in Hp as [Hp|Hp]; [by apply Hhere|].
      destruct (Ha2 p Hp) as (Hex & event & Hin & Hdel & Hcreate).
      split; [done|]. exists event. split; [by apply list_elem_of_further|done].
Qed.

(** X6. The debounce records are per path: the record of a path that none
    of the events received names is, after the loop, what it was
    before. *)
Theorem loop_leaves_other_records (rs : list Received) (h : DevWatch) (q : string) :
  q ∉ eventNames rs ->
  lastEventInfo (snd (loop cfg rs h)) !! q = lastEventInfo h !! q.
Proof.
  revert h. induction rs as [|r rest IH]; intros h Hq; [done|].
  rewrite loop_cons.
  destruct (onReceive_frame r h) as (_ & log & _ & _ & _ & _ & _ & _ & Hr).
  assert (Hhere : lastEventInfo (snd (onReceive cfg r h)) !! q = lastEventInfo h !! q).
  { destruct Hr as [->|(event & k & -> & ->)]; [done|].
    apply lookup_insert_ne. intros <-. apply Hq. cbn. apply list_elem_of_here. }
  destruct (stops r); [done|].
  rewrite IH; [done|]. intros Hin. apply Hq.
  destruct r as [[event|]|[|]|]; cbn; try done. by apply list_elem_of_further.
Qed.

(** X7. A record is never removed, and records appear only for paths of
    events received: the paths with a record after the loop include those
    with a record before, and any other is the path of one of the
    events. *)
Theorem loop_records_only_grow (rs : list Received) (h : DevWatch) :
  dom (lastEventInfo h) ⊆ dom (lastEventInfo (snd (loop cfg rs h))) /\
  dom (lastEventInfo (snd (loop cfg rs h)))
    ⊆ dom (lastEventInfo h) ∪ list_to_set (eventNames rs).
Proof.
  revert h. induction rs as [|r rest IH]; intros h.
  - cbn. set_solver.
  - rewrite loop_cons.
    destruct (onReceive_frame r h) as (_ & log & _ & _ & _ & _ & _ & _ & Hr).
    assert (Hhere : dom (lastEventInfo h) ⊆ dom (lastEventInfo (snd (onReceive cfg r h))) /\
                    dom (lastEventInfo (snd (onReceive cfg r h)))
                      ⊆ dom (lastEventInfo h) ∪ list_to_set (eventNames [r])).
    { destruct Hr as [->|(event & k & -> & ->)]; [set_solver|].
      rewrite dom_insert_L. cbn. set_solver. }
    destruct Hhere as [Hlow Hup].
    assert (Hnames : (list_to_set (eventNames [r]) : gset string)
                       ⊆ list_to_set (eventNames (r :: rest))).
    { destruct r as [[event|]|[|]|]; cbn; set_solver. }
    destruct (stops r); cbn [snd].
    + split; [done|]. set_solver.
    + destruct (IH (snd (onReceive cfg r h))) as [Hlow2 Hup2].
      assert (Hrest : (list_to_set (eventNames rest) : gset string)
                        ⊆ list_to_set (eventNames (r :: rest))).
      { destruct r as [[event|]|[|]|]; cbn; set_solver. }
      split; set_solver.
Qed.

(** X8. Once [watchEvents] has run there is a reload timer, and it is the
    head of [watchEvents] alone that decides on the goroutine: a receiver
    that came without a timer, or with the goroutine, has the goroutine
    afterwards, whatever was received; a timer is never taken away. *)
Theorem watchEvents_keeps_timer (rs : list Received) (h : DevWatch) :
  let h' := snd (watchEvents cfg rs h) in
  is_Some (reloadTimer h') /\
  consumer h' = (consumer h || bool_decide (reloadTimer h = None)).
Proof.
  intros h'. subst h'. unfold watchEvents. rewrite bind_eq.
  assert (Hloop : forall rs h,
            consumer (snd (loop cfg rs h)) = consumer h /\
            (is_Some (reloadTimer h) -> is_Some (reloadTimer (snd (loop cfg rs h))))).
  { clear. intros rs. induction rs as [|r rest IH]; intros h; [done|].
    rewrite loop_cons.
    destruct (onReceive_frame r h) as (_ & log & _ & Hg & Ht & _).
    destruct (stops r); [done|].
    destruct (IH (snd (onReceive cfg r h))) as [Hg2 Ht2].
    split; [congruence|]. intros Hsome. by apply Ht2, Ht. }
  destruct (Hloop rs (snd (startReloadTimer h))) as [-> Hsome].
  unfold startReloadTimer, getTimer, bind in *. cbn in *.
  destruct (reloadTimer h) as [timer|] eqn:Htimer; cbn in *.
  - split; [apply Hsome; rewrite Htimer; eauto|]. by rewrite orb_false_r.
  - split; [apply Hsome; eauto|]. by rewrite orb_true_r.
Qed.

(** X9. Nothing is processed after [watchEvents] has returned: what
    follows a closed channel or the exit signal in what the loop receives
    has no effect. *)
Theorem loop_ignores_what_follows_return (before rest : list Received) (r : Received)
    (h : DevWatch) :
  stops r = true ->
  loop cfg (before ++ r :: rest) h = loop cfg (before ++ [r]) h.
Proof.
  intros Hstop. revert h. induction before as [|b before IH]; intros h.
  - cbn [app]. rewrite !loop_cons, Hstop. reflexivity.
  - cbn [app]. rewrite !loop_cons. destruct (stops b); [reflexivity|apply IH].
Qed.

(** X10. An error value received from the notification source is dropped
    without a trace: the loop ends in the same receiver, log included,
    with the error values taken out of what it receives. *)
Theorem loop_drops_error_values (rs : list Received) (h : DevWatch) :
  loop cfg (List.filter (fun r => negb (isErrorValue r)) rs) h = loop cfg rs h.
Proof.
  revert h. induction rs as [|r rest IH]; intros h; [reflexivity|].
  cbn [List.filter]. destruct (isErrorValue r) eqn:Herr; cbn [negb].
  - destruct r as [[event|]|[|]|]; try discriminate.
    rewrite (loop_cons (FromErrors true)). cbn. apply IH.
  - rewrite !loop_cons. destruct (stops r); [reflexivity|apply IH].
Qed.

(** X11. An idle timer does not fire.  From a receiver whose reload timer
    is neither active nor holding a tick, whatever the loop, the handlers,
    the runtime and the goroutine do short of a call of [scheduleReload],
    the timer stays idle and the reload action is not called: no reload
    at start-up, none between bursts. *)
Theorem idle_timer_never_fires (h h' : DevWatch) :
  idle h -> rtc (Step cfg) h h' ->
  idle h' /\ reloads (calls h') = reloads (calls h).
Proof.
  intros Hidle Hsteps. induction Hsteps as [h|h h1 h' Hstep _ IH]; [done|].
  destruct Hidle as (timer & Htimer & Hwhen & HC).
  assert (idle h1 /\ reloads (calls h1) = reloads (calls h)) as [Hidle1 Hrel1].
  { destruct Hstep as [h w records log Hclock Hlog | h h1 Hexp | h h1 Hcon].
    - split; [by exists timer|]. cbn. by rewrite reloads_app, Hlog, app_nil_r.
    - unfold expire in Hexp. rewrite Htimer, Hwhen in Hexp. done.
    - unfold consume, tryRecv in Hcon. rewrite Htimer, HC in Hcon.
      by destruct (consumer h). }
  destruct (IH Hidle1) as [Hidle' Hrel']. split; [done|congruence].
Qed.

(** X12. A qualifying result that is followed by 50 ms without another
    gets its reload.  With the reload action configured and a timer whose
    channel is empty: after [scheduleReload], once the clock has reached
    the deadline, the timer can fire, the goroutine can take the tick, and
    doing so calls the reload action once, then leaves the timer idle, so
    that the next result starts a burst of its own. *)
Theorem reload_follows_a_quiet_window (reload : World -> error * World)
    (h : DevWatch) (timer : Timer) (w : World)
    (records : gmap string fileEventKey) (log : list Call) :
  BrowserReload cfg = Some reload ->
  consumer h = true ->
  reloadTimer h = Some timer -> C timer = None ->
  reloads log = [] ->
  time_Now (world h) + 50 * Millisecond <= time_Now w ->
  let armed := snd (scheduleReload h) in
  let due :=
    {| world := w; reloadTimer := reloadTimer armed; consumer := consumer armed;
       lastEventInfo := records; calls := calls armed ++ log |} in
  exists fired finished,
    expire due = (true, fired) /\
    consume cfg fired = (true, finished) /\
    idle finished /\
    reloads (calls finished) = reloads (calls h) ++ [time_Now w].
Proof.
  intros Hreload Hcons Htimer HC Hlog Hdue armed due. subst armed due.
  destruct timer as [active chan]. cbn in HC. subst chan.
  unfold scheduleReload, now, getTimer, bind, expire, consume. cbn.
  rewrite Htimer. cbn.
  assert (Hle : (time_Now (world h) + wait <=? time_Now w) = true).
  { unfold wait. lia. }
  destruct (reload w) as [err w'] eqn:Hrun.
  destruct active as [deadline|]; cbn; rewrite Hle; cbn.
  all: eexists _, _; split; [reflexivity|]; cbn; rewrite Hcons; cbn.
  all: unfold triggerBrowserReload; rewrite Hreload.
  all: unfold now, call, bind, ret; cbn; rewrite Hrun.
  all: split; [reflexivity|]; cbn; split;
    [eexists; split; [reflexivity|]; split; reflexivity|].
  all: rewrite !reloads_app, Hlog; cbn; by rewrite !app_nil_r.
Qed.

(** X13. [scheduleReload] on a receiver without timer makes a timer and
    no goroutine, and the head of [watchEvents] starts the goroutine only
    with a timer it makes itself.  So on a receiver that comes to
    [watchEvents] with such a timer nobody waits, and whatever is
    scheduled and however long the clock runs, the goroutine calls no
    reload. *)
Theorem timer_without_goroutine_is_silent (h h' : DevWatch) :
  reloadTimer h = None -> consumer h = false ->
  let scheduled := snd (scheduleReload h) in
  rtc (fun a b => Step cfg a b \/ b = snd (scheduleReload a))
      (snd (startReloadTimer scheduled)) h' ->
  startReloadTimer scheduled = (tt, scheduled) /\
  consumer h' = false /\
  reloads (calls h') = reloads (calls scheduled).
Proof.
  intros Hnone Hcons scheduled Hrun.
  assert (Hstart : startReloadTimer scheduled = (tt, scheduled)).
  { subst scheduled. unfold startReloadTimer, scheduleReload, now, getTimer, bind.
    cbn. rewrite Hnone. reflexivity. }
  rewrite Hstart in Hrun. cbn [snd] in Hrun. split; [done|].
  assert (Hsched : consumer scheduled = false).
  { subst scheduled. by destruct (scheduleReload_effect h) as (_ & -> & _). }
  cut (forall a c : DevWatch,
         consumer a = false ->
         rtc (fun a b => Step cfg a b \/ b = snd (scheduleReload a)) a c ->
         consumer c = false /\ reloads (calls c) = reloads (calls a)).
  { intros Hgen. exact (Hgen _ _ Hsched Hrun). }
  clear. intros a c Ha Hrun. induction Hrun as [a|a b c Hstep _ IH]; [done|].
  assert (consumer b = false /\ reloads (calls b) = reloads (calls a)) as [Hb Hrel].
  { destruct Hstep as [Hstep| ->].
    - destruct Hstep as [a w records log Hclock Hlog | a b Hexp | a b Hcon].
      + cbn. by rewrite reloads_app, Hlog, app_nil_r.
      + unfold expire in Hexp. destruct (reloadTimer a) as [t|]; [|done].
        destruct (when t); [|done]. destruct (_ <=? _); [|done].
        injection Hexp as <-. done.
      + unfold consume in Hcon. rewrite Ha in Hcon. done.
    - destruct (scheduleReload_effect a) as (_ & -> & _ & -> & _).
      rewrite reloads_app. cbn. by rewrite app_nil_r. }
  destruct (IH Hb) as [Hc Hrel']. split; [done|congruence].
Qed.

(** X14. What a processed event leaves is what the next event on the
    path is tested against.  After a processed turn taken at clock reading
    [t1], a notification for the same path at [t2] is processed if more
    than 50 ms lie between [t1] and [t2], whatever the content; otherwise
    it is processed exactly when the fingerprint of the file differs from
    the one taken after the dispatch of the first.  [t1] is read before
    dispatch, so a dispatch that takes longer than the window lets the
    next notification through. *)
Theorem repeated_notification (fileName : string) (event : Event) (eventType : string)
    (isDeleteEvent : bool) (h h2 : DevWatch) :
  let name := Name event in
  let t1 := time_Now (world h) in
  let t2 := time_Now (world h2) in
  let dispatched :=
    snd (handleFileEvent cfg fileName name eventType isDeleteEvent
           (snd (shouldProcess name t1 h))) in
  let h1 := snd (fileEvent cfg fileName event eventType isDeleteEvent h) in
  fst (shouldProcess name t1 h) = true ->
  lastEventInfo h2 !! name = lastEventInfo h1 !! name ->
  fst (shouldProcess name t2 h2) =
    if 50 * Millisecond <? t2 - t1 then true
    else negb (bool_decide (hashOf (fst (os_Read name (world h2)))
                            = hashOf (fst (os_Read name (world dispatched))))).
Proof.
  intros name t1 t2 dispatched h1 Hfirst Hsame. subst h1.
  rewrite fileEvent_unfold in Hsame. fold name t1 in Hsame. rewrite Hfirst in Hsame.
  cbn [snd lastEventInfo] in Hsame. fold dispatched in Hsame.
  rewrite lookup_insert_eq in Hsame.
  unfold shouldProcess, getRecord. rewrite bind_eq. cbn [fst snd].
  rewrite Hsame. cbn [lastTime lastHash]. rewrite Sub_within_window.
  destruct (50 * Millisecond <? t2 - t1) eqn:Hfar.
  - assert ((t2 - t1 <=? 50 * Millisecond) = false) as -> by lia. reflexivity.
  - assert ((t2 - t1 <=? 50 * Millisecond) = true) as -> by lia.
    rewrite bind_eq, calculateFileHash_eq. cbn [fst snd].
    by destruct (bool_decide _).
Qed.

Lemma rangeHandlers_order (fileName eventName eventType : string)
    (isDeleteEvent : bool) (handlers : list FilesEventHandlers) :
  forall i flags h,
    exists log,
      extends h (snd (rangeHandlers fileName eventName eventType isDeleteEvent i
                        handlers flags h)) log /\
      StronglySorted Nat.lt (invoked log) /\ Forall (fun k => (i <= k)%nat) (invoked log) /\
      StronglySorted Nat.lt (asked log) /\ Forall (fun k => (i <= k)%nat) (asked log).
Proof.
  induction handlers as [|handler rest IH]; intros i flags h.
  - exists []. split; [apply extends_refl|]. cbn. repeat constructor.
  - cbn [rangeHandlers]. rewrite bind_eq.
    destruct (oneHandler_cases fileName eventName eventType isDeleteEvent i handler flags h)
      as (log1 & E1 & Hcases).
    destruct (oneHandler fileName eventName eventType isDeleteEvent i handler flags h)
      as [flags1 h1]. cbn [fst snd] in *.
    destruct (IH (S i) flags1 h1) as (log2 & E2 & Si & Fi & Sa & Fa).
    exists (log1 ++ log2). split; [eapply extends_trans; eauto|].
    assert (Hlater : forall l, Forall (fun k => (S i <= k)%nat) l ->
              Forall (Nat.lt i) l /\ Forall (fun k => (i <= k)%nat) l).
    { intros l Hl. split; eapply Forall_impl; try exact Hl; cbn; intros; lia. }
    destruct (Hlater _ Fi) as [Li Wi]. destruct (Hlater _ Fa) as [La Wa].
    assert (Hshape : (invoked log1 = [] \/ invoked log1 = [i]) /\
                     (asked log1 = [] \/ asked log1 = [i])).
    { destruct Hcases as [(_ & -> & _) | [(_ & _ & m & e & -> & _) | (_ & err & -> & _)]].
      - split; by left.
      - split; [by left|by right].
      - destruct (negb isDeleteEvent && _); cbn; split; auto. }
    unfold invoked, asked in *. rewrite !omap_app.
    destruct Hshape as [[-> | ->] [-> | ->]]; cbn [app].
    all: repeat split; try done; try (constructor; [done|done]); try (constructor; [lia|done]).
Qed.

(** X15. Handlers take their turn in the order of registration, each at
    most once per event: in the calls [handleFileEvent] makes, the
    handlers called, and those the oracle is asked about, appear with
    strictly increasing positions in the list of handlers. *)
Theorem handlers_called_once_in_order (fileName eventName eventType : string)
    (isDeleteEvent : bool) (h : DevWatch) :
  exists log,
    calls (snd (handleFileEvent cfg fileName eventName eventType isDeleteEvent h))
      = calls h ++ log /\
    StronglySorted Nat.lt (invoked log) /\
    StronglySorted Nat.lt (asked log).
Proof.
  unfold handleFileEvent. rewrite bind_eq.
  destruct (rangeHandlers_order fileName eventName eventType isDeleteEvent (Handlers cfg)
              0 (false, false) h) as (log & (Hcalls & _) & Si & _ & Sa & _).
  destruct (rangeHandlers _ _ _ _ 0 (Handlers cfg) (false, false) h) as [[p g] h1].
  cbn [fst snd] in *. destruct (_ || _).
  - destruct (scheduleReload_effect h1) as (_ & _ & _ & Harm & _).
    eexists. split; [rewrite Harm, Hcalls, <- app_assoc; reflexivity|].
    unfold invoked, asked in *. rewrite !omap_app. cbn. by rewrite !app_nil_r.
  - exists log. done.
Qed.

Lemma fileEvent_calls (fileName : string) (event : Event) (eventType : string)
    (isDeleteEvent : bool) (h : DevWatch) :
  exists log,
    calls (snd (fileEvent cfg fileName event eventType isDeleteEvent h)) = calls h ++ log /\
    forall c, c ∈ log -> fileCall c = true.
Proof.
  rewrite fileEvent_unfold.
  destruct (shouldProcess_extends (Name event) (time_Now (world h)) h)
    as (log1 & (Hcalls1 & _) & Hshape).
  assert (Hlog1 : forall c, c ∈ log1 -> fileCall c = true).
  { intros c Hc. destruct Hshape as [->|[hash ->]]; in_log; by subst. }
  clear Hshape.
  destruct (fst (shouldProcess (Name event) (time_Now (world h)) h)).
  2:{ exists log1. done. }
  cbn [snd calls]. unfold handleFileEvent. rewrite bind_eq.
  destruct (rangeHandlers_spec fileName (Name event) eventType isDeleteEvent
              (Handlers cfg) 0 (false, false)
              (snd (shouldProcess (Name event) (time_Now (world h)) h)))
    as (log2 & (Hcalls2 & _) & Hidx & _).
  destruct (rangeHandlers _ _ _ _ 0 (Handlers cfg) (false, false) _) as [[p g] h1].
  cbn [fst snd] in *.
  assert (Hlog2 : forall c, c ∈ log2 -> fileCall c = true).
  { intros c Hc. destruct (Hidx c Hc) as (k & Hk & _). by destruct c. }
  destruct (_ || _).
  - destruct (scheduleReload_effect h1) as (_ & _ & _ & Harm & _).
    eexists (log1 ++ log2 ++ [_; _]). split.
    + rewrite Harm, Hcalls2, Hcalls1, <- !app_assoc. reflexivity.
    + intros c Hc. in_log; [by apply Hlog1|by apply Hlog2|by subst|by subst].
  - unfold ret. cbn [snd]. eexists (log1 ++ log2 ++ [_]). split.
    + rewrite Hcalls2, Hcalls1, <- !app_assoc. reflexivity.
    + intros c Hc. in_log; [by apply Hlog1|by apply Hlog2|by subst].
Qed.

(** X16. A remove is always handled as the remove of a file, also when a
    directory was removed: the turn makes no call but fingerprint reads,
    questions to the oracle, calls of handlers and the arming of the
    timer.  In particular the folder observer is not told and nothing is
    registered. *)
Theorem removes_are_file_events (event : Event) (h : DevWatch) :
  isDelete event = true ->
  exists log,
    calls (snd (onEvent cfg event h)) = calls h ++ log /\
    forall c, c ∈ log -> fileCall c = true.
Proof.
  intros Hdel. unfold onEvent. fold (isDelete event). rewrite Hdel. cbn [negb andb].
  rewrite bind_eq. cbv [ret]. cbn [fst snd].
  destruct (GetFileName (Name event)) as [fileName|].
  - apply fileEvent_calls.
  - exists []. rewrite app_nil_r. split; [done|]. intros c Hc. in_log.
Qed.

(** X17. Directories never go through debounce or dispatch.  For an event
    that is not a remove and whose path [os.Stat] reports as a directory,
    the turn writes no record, leaves the reload timer as it was, and
    makes no fingerprint read, no question to the oracle and no call of a
    file handler. *)
Theorem directory_events_bypass_dispatch (event : Event) (h : DevWatch) :
  isDelete event = false ->
  fst (os_Stat (Name event) (world h)) = Some true ->
  let h' := snd (onEvent cfg event h) in
  lastEventInfo h' = lastEventInfo h /\
  reloadTimer h' = reloadTimer h /\
  exists log, calls h' = calls h ++ log /\ forall c, c ∈ log -> fileCall c = false.
Proof.
  intros Hdel Hdir h'. subst h'. unfold onEvent. fold (isDelete event). rewrite Hdel.
  cbn [negb andb]. rewrite bind_eq. unfold statNotContained. rewrite bind_eq.
  pose proof (call_extends (os_Stat (Name event))
                (fun r => CStat (Name event) (bool_decide (is_Some r))) h)
    as ((Hc1 & Ht1 & _ & Hr1) & Hres & _).
  destruct (call (os_Stat (Name event)) _ h) as [info h1]. cbn [fst snd] in *.
  rewrite Hdir in Hres. subst info.
  unfold contain, note, bind, ret. cbn [fst snd].
  destruct (Contain (Name event)); cbn [fst snd].
  { split; [done|]. split; [done|]. eexists [_; _]. cbn [calls].
    split; [by rewrite Hc1, <- app_assoc|]. intros c Hc. in_log; by subst. }
  destruct (GetFileName (Name event)) as [fileName|].
  2:{ split; [done|]. split; [done|]. eexists [_; _]. cbn [calls].
      split; [by rewrite Hc1, <- app_assoc|]. intros c Hc. in_log; by subst. }
  cbn [IsDir].
  match goal with
  | |- context [handleDirectoryEvent cfg fileName (Name event) ?ty ?h2] =>
      destruct (handleDirectoryEvent_frame fileName (Name event) ty h2)
        as (log & (Hc & Ht & _ & Hr) & Hcalls & _)
  end.
  cbn [calls reloadTimer lastEventInfo] in *.
  split; [congruence|]. split; [congruence|].
  eexists (_ :: _ :: log). split; [rewrite Hc, Hc1, <- !app_assoc; reflexivity|].
  intros c Hin. apply elem_of_cons in Hin as [->|Hin]; [done|].
  apply elem_of_cons in Hin as [->|Hin]; [done|].
  apply Hcalls in Hin. by destruct c.
Qed.
End FurtherProperties.


(** ** The further properties on the concrete world *)

Lemma unsupported_extension_is_inert_witness :
  (forall handler, handler ∈ Handlers Example.config ->
     Contains (SupportedExtensions handler) (Ext "/" "notes.txt") = false) /\
  handleFileEvent Example.config "notes.txt" "notes.txt" "write" false Example.started
  = (tt, Example.started).
Proof.
  assert (Hnone : forall handler, handler ∈ Handlers Example.config ->
            Contains (SupportedExtensions handler) (Ext "/" "notes.txt") = false).
  { intros handler Hin. cbn in Hin. in_log; subst; reflexivity. }
  split; [exact Hnone|].
  exact (unsupported_extension_is_inert (H := Example.runtime) Example.config
           "notes.txt" "notes.txt" "write" false Example.started Hnone).
Defined.

Lemma unowned_go_file_is_not_dispatched_witness :
  Ext "/" "web/main.go" = ".go"%string /\
  let h' := snd (handleFileEvent Example.backends "main.go" "web/main.go" "write" false
                   Example.started) in
  reloadTimer h' = reloadTimer Example.started /\
  exists log, calls h' = calls Example.started ++ log /\ invoked log = [] /\ arms log = [].
Proof.
  split; [reflexivity|].
  apply (unowned_go_file_is_not_dispatched (H := Example.runtime) Example.backends
           "main.go" "web/main.go" "write" Example.started eq_refl).
  intros handler Hin _ w. cbn in Hin. in_log; subst; left; reflexivity.
Defined.

Lemma oracle_asked_only_about_go_saves_witness :
  exists log,
    calls (snd (handleFileEvent Example.config "main.go" "web/main.go" "remove" true
                  Example.started))
      = calls Example.started ++ log /\
    asked log = [].
Proof.
  exact (oracle_asked_only_about_go_saves (H := Example.runtime) Example.config
           "main.go" "web/main.go" "remove" true Example.started (or_introl eq_refl)).
Defined.

Lemma loop_leaves_other_records_witness :
  "web/main.go"%string ∉ eventNames [FromEvents (Some Example.styled)] /\
  lastEventInfo (snd (loop Example.config [FromEvents (Some Example.styled)]
                        Example.styledOnce)) !! "web/main.go"%string
  = lastEventInfo Example.styledOnce !! "web/main.go"%string.
Proof.
  assert (Hq : "web/main.go"%string ∉ eventNames [FromEvents (Some Example.styled)]).
  { cbn. apply not_elem_of_cons. split; [discriminate|apply not_elem_of_nil]. }
  split; [exact Hq|].
  exact (loop_leaves_other_records (H := Example.runtime) Example.config
           [FromEvents (Some Example.styled)] Example.styledOnce "web/main.go" Hq).
Defined.

Lemma loop_ignores_what_follows_return_witness :
  stops FromExitChan = true /\
  loop Example.config
    ([FromEvents (Some Example.styled)] ++ FromExitChan :: [FromEvents (Some Example.saved)])
    Example.started
  = loop Example.config ([FromEvents (Some Example.styled)] ++ [FromExitChan]) Example.started.
Proof.
  split; [reflexivity|].
  exact (loop_ignores_what_follows_return (H := Example.runtime) Example.config
           [FromEvents (Some Example.styled)] [FromEvents (Some Example.saved)]
           FromExitChan Example.started eq_refl).
Defined.

Lemma idle_timer_never_fires_witness :
  idle Example.started /\
  rtc (Step Example.config) Example.started
      (Example.tick (100 * Millisecond) Example.started) /\
  idle (Example.tick (100 * Millisecond) Example.started) /\
  reloads (calls (Example.tick (100 * Millisecond) Example.started))
  = reloads (calls Example.started).
Proof.
  assert (Hidle : idle Example.started).
  { eexists. split; [reflexivity|]. split; reflexivity. }
  assert (Hrun : rtc (Step Example.config) Example.started
                   (Example.tick (100 * Millisecond) Example.started)).
  { apply rtc_once. apply step_world; [vm_compute; congruence|reflexivity]. }
  split; [exact Hidle|]. split; [exact Hrun|].
  exact (idle_timer_never_fires (H := Example.runtime) Example.config
           Example.started _ Hidle Hrun).
Defined.

Lemma reload_follows_a_quiet_window_witness :
  BrowserReload Example.config = Some (fun w => (None, w)) /\
  consumer Example.started = true /\
  reloadTimer Example.started = Some {| when := None; C := None |} /\
  time_Now (world Example.started) + 50 * Millisecond
    <= time_Now (Example.later (50 * Millisecond) Example.disk) /\
  let armed := snd (scheduleReload Example.started) in
  let due :=
    {| world := Example.later (50 * Millisecond) Example.disk;
       reloadTimer := reloadTimer armed; consumer := consumer armed;
       lastEventInfo := ∅; calls := calls armed ++ [] |} in
  exists fired finished,
    expire due = (true, fired) /\
    consume Example.config fired = (true, finished) /\
    idle finished /\
    reloads (calls finished)
    = reloads (calls Example.started)
      ++ [time_Now (Example.later (50 * Millisecond) Example.disk)].
Proof.
  assert (Hdue : time_Now (world Example.started) + 50 * Millisecond
                 <= time_Now (Example.later (50 * Millisecond) Example.disk)).
  { vm_compute. congruence. }
  split; [reflexivity|]. split; [reflexivity|]. split; [reflexivity|].
  split; [exact Hdue|].
  exact (reload_follows_a_quiet_window (H := Example.runtime) Example.config
           (fun w => (None, w)) Example.started {| when := None; C := None |}
           (Example.later (50 * Millisecond) Example.disk) ∅ []
           eq_refl eq_refl eq_refl eq_refl eq_refl Hdue).
Defined.

Lemma timer_without_goroutine_is_silent_witness :
  reloadTimer Example.fresh = None /\ consumer Example.fresh = false /\
  let scheduled := snd (scheduleReload Example.fresh) in
  startReloadTimer scheduled = (tt, scheduled) /\
  consumer (snd (scheduleReload scheduled)) = false /\
  reloads (calls (snd (scheduleReload scheduled))) = reloads (calls scheduled).
Proof.
  split; [reflexivity|]. split; [reflexivity|].
  apply (timer_without_goroutine_is_silent (H := Example.runtime) Example.config
           Example.fresh _ eq_refl eq_refl).
  apply rtc_once. right. reflexivity.
Defined.

Lemma repeated_notification_witness :
  fst (shouldProcess "web/style.css" (time_Now (world Example.started)) Example.started)
    = true /\
  fst (shouldProcess "web/style.css" (time_Now (world Example.styledOnce))
         Example.styledOnce)
  = if 50 * Millisecond
         <? time_Now (world Example.styledOnce) - time_Now (world Example.started)
    then true
    else negb (bool_decide
                 (hashOf (fst (os_Read "web/style.css" (world Example.styledOnce)))
                  = hashOf (fst (os_Read "web/style.css"
                                   (world (snd (handleFileEvent Example.config "style.css"
                                                  "web/style.css" "write" false
                                                  (snd (shouldProcess "web/style.css"
                                                          (time_Now (world Example.started))
                                                          Example.started))))))))).
Proof.
  split; [reflexivity|].
  exact (repeated_notification (H := Example.runtime) Example.config
           "style.css" Example.styled "write" false Example.started Example.styledOnce
           eq_refl eq_refl).
Defined.


Lemma removes_are_file_events_witness :
  isDelete Example.removed = true /\
  exists log,
    calls (snd (onEvent Example.config Example.removed Example.started))
      = calls Example.started ++ log /\
    forall c, c ∈ log -> fileCall c = true.
Proof.
  split; [reflexivity|].
  exact (removes_are_file_events (H := Example.runtime) Example.config
           Example.removed Example.started eq_refl).
Defined.

Lemma directory_events_bypass_dispatch_witness :
  isDelete Example.created = false /\
  fst (os_Stat (Name Example.created) (world Example.started)) = Some true /\
  let h' := snd (onEvent Example.config Example.created Example.started) in
  lastEventInfo h' = lastEventInfo Example.started /\
  reloadTimer h' = reloadTimer Example.started /\
  exists log,
    calls h' = calls Example.started ++ log /\ forall c, c ∈ log -> fileCall c = false.
Proof.
  split; [reflexivity|]. split; [reflexivity|].
  exact (directory_events_bypass_dispatch (H := Example.runtime) Example.config
           Example.created Example.started eq_refl eq_refl).
Defined.
